(** * gostl: STL decoding, bounding box, projection and rendering

    A shallow embedding of [model/model.go] and the properties of its
    decoders, of [getMinsMaxs], of [ProjectModelVertices] and of
    [DrawMatrix].

    Conventions of the embedding:
    - [float32] is IEEE-754 binary32, given by the Standard Library's
      [spec_float] at precision 24 and maximal exponent 128, with round to
      nearest even; NaN, the infinities and the two zeros are values.
    - [int] is the 64-bit two's complement integer of the usual Go targets:
      a [Z] with the wrap-around written out ([wrap]).
    - a Go run-time panic is a result of its own ([Panics]), distinct from a
      returned [error].
    - [make] panics as the runtime's [makeslice] does: on a negative length
      and on a length whose bytes exceed the allocator's limit [maxAlloc]
      (2^48 bytes on the 64-bit targets with 48 address bits, linux/amd64
      among them). An allocation within that limit returns: running out of
      physical memory is a fatal error of the process, not a panic, and is
      outside the embedding. *)

From Stdlib Require Import ZArith List String Ascii Strings.Byte Bool Lia.
From Stdlib Require Import Floats.SpecFloat.
From stdpp Require Import base list.
Import ListNotations.

Local Open Scope Z_scope.

(** ** Single-precision floats *)

Module F32.

Definition prec : Z := 24.
Definition emax : Z := 128.

Definition float32 : Type := spec_float.

Definition sub : float32 -> float32 -> float32 := SFsub prec emax.
Definition mul : float32 -> float32 -> float32 := SFmul prec emax.
Definition div : float32 -> float32 -> float32 := SFdiv prec emax.

(** Go's [a < b] and [a > b] on floats: false when either side is NaN. *)
Definition ltb (a b : float32) : bool := SFltb a b.
Definition gtb (a b : float32) : bool := SFltb b a.
Definition leb (a b : float32) : bool := SFleb a b.
Definition eqb (a b : float32) : bool := SFeqb a b.

Definition is_nan (a : float32) : bool :=
  match a with S754_nan => true | _ => false end.

Definition is_finite (a : float32) : bool :=
  match a with S754_zero _ | S754_finite _ _ _ => true | _ => false end.

(** The values of the Go type: well-formed binary32 numbers. *)
Definition valid (a : float32) : bool := valid_binary prec emax a.

Definition zero : float32 := S754_zero false.

(** [math.MaxFloat32] = (2^24 - 1) * 2^104. *)
Definition MaxFloat32 : float32 := S754_finite false 16777215 104.

Definition opp : float32 -> float32 := SFopp.

(** [float32(n)] for an integer [n]: rounded to nearest even. *)
Definition of_int (n : Z) : float32 := binary_normalize prec emax n 0 false.

(** The constants 3, 1.5 and 4 of [DrawMatrix], exactly representable. *)
Definition three : float32 := S754_finite false 12582912 (-22).
Definition one_and_half : float32 := S754_finite false 12582912 (-23).
Definition four : float32 := S754_finite false 8388608 (-21).
Definition one : float32 := S754_finite false 8388608 (-23).

(** The integer part of a finite float, rounded toward zero. *)
Definition trunc (a : float32) : option Z :=
  match a with
  | S754_zero _ => Some 0
  | S754_finite s m e =>
      Some (cond_Zopp s (if 0 <=? e then Z.pos m * 2 ^ e
                         else Z.pos m / 2 ^ (- e)))
  | _ => None
  end.

(** [math.Float32frombits]: the float of a 32-bit pattern. *)
Definition of_bits (b : Z) : float32 :=
  let s := Z.testbit b 31 in
  let e := Z.land (Z.shiftr b 23) 255 in
  let m := Z.land b 8388607 in
  if e =? 0 then
    match m with
    | Z.pos p => S754_finite s p (-149)
    | _ => S754_zero s
    end
  else if e =? 255 then
    (if m =? 0 then S754_infinity s else S754_nan)
  else
    match m + 8388608 with
    | Z.pos p => S754_finite s p (e - 150)
    | _ => S754_nan
    end.

End F32.

Abbreviation float32 := F32.float32.

(** ** Machine integers and run-time outcomes *)

Definition intMin : Z := - 2 ^ 63.
Definition intMax : Z := 2 ^ 63 - 1.

(** Two's complement wrap-around of [int] arithmetic. *)
Definition wrap (z : Z) : Z := (z + 2 ^ 63) mod 2 ^ 64 - 2 ^ 63.

Definition in_int (z : Z) : bool := (intMin <=? z) && (z <=? intMax).

(** [uint32] arithmetic. *)
Definition wrap32 (z : Z) : Z := z mod 2 ^ 32.

Inductive panic : Type :=
| IndexOutOfRange
| SliceBoundsOutOfRange
| MakeSliceLenOutOfRange.

Inductive outcome (A : Type) : Type :=
| Returns (a : A)
| Panics (p : panic).
Arguments Returns {A} a.
Arguments Panics {A} p.

Definition obind {A B} (x : outcome A) (f : A -> outcome B) : outcome B :=
  match x with
  | Returns a => f a
  | Panics p => Panics p
  end.

Notation "x <- e1 ;; e2" := (obind e1 (fun x => e2))
  (at level 100, e1 at next level, right associativity).

(** A loop whose body may panic: the first panic ends it. *)
Fixpoint ofold {A B} (f : B -> A -> outcome B) (l : list A) (b : B)
  : outcome B :=
  match l with
  | [] => Returns b
  | a :: l' => b' <- f b a ;; ofold f l' b'
  end.

(** The [error] values the decoders return. *)
Inductive error : Type :=
| EOF                       (* io.EOF *)
| ErrUnexpectedEOF          (* io.ErrUnexpectedEOF *)
| ErrLineShorter            (* "Line shorter than mustStartWith." *)
| ErrLineDifferent          (* "Line different from mustStartWith." *)
| ErrNumberOfParts          (* "Number of line parts different from expected" *)
| ErrParseFloat (s : string)   (* *strconv.NumError *)
| ErrStream (msg : string). (* any other error of the underlying stream *)

(** ** Data model *)

(** A Go array of length 3. *)
Record Array3 (A : Type) : Type := mkArray3 { a0 : A; a1 : A; a2 : A }.
Arguments mkArray3 {A} _ _ _.
Arguments a0 {A} _.
Arguments a1 {A} _.
Arguments a2 {A} _.

(** [a[k]] and [a[k] = v] for an index in range; the indices used by the
    program are loop indices of [range] over the array, or come from
    [GetAxisForProjection], which returns 0, 1 or 2. *)
Definition get3 {A} (a : Array3 A) (k : Z) : A :=
  if k =? 0 then a0 a else if k =? 1 then a1 a else a2 a.

Definition set3 {A} (a : Array3 A) (k : Z) (v : A) : Array3 A :=
  if k =? 0 then mkArray3 v (a1 a) (a2 a)
  else if k =? 1 then mkArray3 (a0 a) v (a2 a)
  else mkArray3 (a0 a) (a1 a) v.

(** [for k := range a]: the indices and the elements, in order. *)
Definition range3 : list Z := [0; 1; 2].
Definition elems3 {A} (a : Array3 A) : list A := [a0 a; a1 a; a2 a].

Record Triangle : Type := mkTriangle {
  Normal : Array3 float32;
  Vertices : Array3 (Array3 float32);
  AttrByteCount : Z
}.

Record Model : Type := mkModel {
  Header : string;
  NumTriangles : Z;
  Triangles : list Triangle
}.

Definition zeroVec : Array3 float32 := mkArray3 F32.zero F32.zero F32.zero.
Definition zeroTriangle : Triangle :=
  mkTriangle zeroVec (mkArray3 zeroVec zeroVec zeroVec) 0.
Definition zeroModel : Model := mkModel EmptyString 0 [].

(** ** Viewing directions *)

Definition ProjectFrom : Type := Z.
Definition ProjectFromSide : ProjectFrom := 0.
Definition ProjectFromFront : ProjectFrom := 1.
Definition ProjectFromTop : ProjectFrom := 2.

(** The named results start at 0 and a [switch] without a matching case
    leaves them there. *)
Definition GetAxisForProjection (p : ProjectFrom) : Z * Z * Z :=
  if p =? ProjectFromSide then (2, 1, 0)
  else if p =? ProjectFromFront then (2, 0, 1)
  else if p =? ProjectFromTop then (1, 0, 2)
  else (0, 0, 0).

(** ** Bounding box *)

(** The body of the innermost loop of [getMinsMaxs], for coordinate [k] of
    the vertex [v]. *)
Definition updateMinsMaxs (v : Array3 float32)
    (st : Array3 float32 * Array3 float32) (k : Z)
  : Array3 float32 * Array3 float32 :=
  let (mins, maxs) := st in
  let mins' := if F32.ltb (get3 v k) (get3 mins k)
               then set3 mins k (get3 v k) else mins in
  let maxs' := if F32.gtb (get3 v k) (get3 maxs k)
               then set3 maxs k (get3 v k) else maxs in
  (mins', maxs').

Definition vertexMinsMaxs (st : Array3 float32 * Array3 float32)
    (v : Array3 float32) : Array3 float32 * Array3 float32 :=
  fold_left (updateMinsMaxs v) range3 st.

Definition triangleMinsMaxs (st : Array3 float32 * Array3 float32)
    (t : Triangle) : Array3 float32 * Array3 float32 :=
  fold_left vertexMinsMaxs (elems3 (Vertices t)) st.

Definition initMins : Array3 float32 :=
  mkArray3 F32.MaxFloat32 F32.MaxFloat32 F32.MaxFloat32.
Definition initMaxs : Array3 float32 :=
  mkArray3 (F32.opp F32.MaxFloat32) (F32.opp F32.MaxFloat32)
           (F32.opp F32.MaxFloat32).

Definition getMinsMaxs (m : Model) : Array3 float32 * Array3 float32 :=
  fold_left triangleMinsMaxs (Triangles m) (initMins, initMaxs).

Definition getDimensions (m : Model) : Array3 float32 :=
  let (mins, maxs) := getMinsMaxs m in
  mkArray3 (F32.sub (a0 maxs) (a0 mins)) (F32.sub (a1 maxs) (a1 mins))
           (F32.sub (a2 maxs) (a2 mins)).

(** ** Projection *)

(** The limit of one allocation, [maxAlloc] of the runtime, and the sizes
    in bytes of the two element types the program allocates: a [float32]
    and a slice header (pointer, length, capacity). *)
Definition maxAlloc : Z := 2 ^ 48.
Definition sizeofFloat32 : Z := 4.
Definition sizeofSlice : Z := 24.

(** [make([]T, n)]: a slice of [n] zero values. As in [makeslice], a
    negative length and a length of more than [maxAlloc] bytes panic with
    [makeslice: len out of range]. *)
Definition make {A} (elemSize : Z) (z : A) (n : Z) : outcome (list A) :=
  if (n <? 0) || (maxAlloc <? elemSize * n)
  then Panics MakeSliceLenOutOfRange
  else Returns (replicate (Z.to_nat n) z).

(** [l[i]], read: an index outside [0, len(l)) panics. *)
Definition index {A} (l : list A) (i : Z) : outcome A :=
  if i <? 0 then Panics IndexOutOfRange
  else match l !! Z.to_nat i with
       | Some a => Returns a
       | None => Panics IndexOutOfRange
       end.

(** The allocation of the output matrix: the outer slice, then one row per
    index of it. *)
Definition initMatrix (matrixSize : Z) : outcome (list (list float32)) :=
  matrix <- make sizeofSlice [] (wrap (Z.quot matrixSize 2 + 1)) ;;
  ofold (fun (mat : list (list float32)) (i : nat) =>
           row <- make sizeofFloat32 F32.zero (wrap (matrixSize + 1)) ;;
           Returns (<[i := row]> mat))
        (seq 0 (length matrix)) matrix.

Section Projection.

(** [int(f)] for a float [f] that is NaN, infinite or outside the range of
    [int]: the language leaves the value to the implementation (amd64
    yields the least [int], arm64 saturates and maps NaN to 0). *)
Variable intOfUnrepresentable : float32 -> Z.

Definition int_of_float32 (f : float32) : Z :=
  match F32.trunc f with
  | Some z => if in_int z then z else wrap (intOfUnrepresentable f)
  | None => wrap (intOfUnrepresentable f)
  end.

(** The body of the vertex loop: the matrix after the vertex [v]. *)
Definition projectVertex (matrixSize projectToX projectToY projectToValue : Z)
    (mins dimensions : Array3 float32) (scale : float32)
    (matrix : list (list float32)) (v : Array3 float32)
  : outcome (list (list float32)) :=
  let adjustedX :=
    F32.div (F32.sub (get3 v projectToX) (get3 mins projectToX)) scale in
  let adjustedY :=
    F32.div (F32.sub (get3 v projectToY) (get3 mins projectToY)) scale in
  let matrixX := int_of_float32 adjustedX in
  let matrixY := int_of_float32 adjustedY in
  let newValue :=
    F32.div (F32.sub (get3 v projectToValue) (get3 mins projectToValue))
            (get3 dimensions projectToValue) in
  let i := Z.quot (wrap (matrixSize - matrixX)) 2 in
  row <- index matrix i ;;
  cur <- index row matrixY ;;
  if F32.gtb newValue cur
  then Returns (<[Z.to_nat i := <[Z.to_nat matrixY := newValue]> row]> matrix)
  else Returns matrix.

Definition projectScale (matrixSize projectToX projectToY : Z)
    (dimensions : Array3 float32) : float32 :=
  if F32.gtb (get3 dimensions projectToX) (get3 dimensions projectToY)
  then F32.div (get3 dimensions projectToX) (F32.of_int matrixSize)
  else F32.div (get3 dimensions projectToY) (F32.of_int matrixSize).

Definition ProjectModelVertices (m : Model) (matrixSize : Z)
    (projectFrom : ProjectFrom) : outcome (list (list float32)) :=
  let '(projectToX, projectToY, projectToValue) :=
    GetAxisForProjection projectFrom in
  let (mins, maxs) := getMinsMaxs m in
  let dimensions :=
    mkArray3 (F32.sub (a0 maxs) (a0 mins)) (F32.sub (a1 maxs) (a1 mins))
             (F32.sub (a2 maxs) (a2 mins)) in
  let scale := projectScale matrixSize projectToX projectToY dimensions in
  matrix <- initMatrix matrixSize ;;
  ofold (fun mat t =>
           ofold (projectVertex matrixSize projectToX projectToY
                    projectToValue mins dimensions scale)
                 (elems3 (Vertices t)) mat)
        (Triangles m) matrix.

End Projection.

(** ** Rendering *)

Definition heavyShade : string :=
  String "226" (String "150" (String "147" EmptyString)).
Definition mediumShade : string :=
  String "226" (String "150" (String "146" EmptyString)).
Definition lightShade : string :=
  String "226" (String "150" (String "145" EmptyString)).
Definition blank : string := String " " EmptyString.
Definition newline : string := String "010" EmptyString.

(** The [switch] on [adjVal := matrix[i][j] * 4]. *)
Definition drawCell (v : float32) : string :=
  let adjVal := F32.mul v F32.four in
  if F32.gtb adjVal F32.three then heavyShade
  else if F32.gtb adjVal F32.one_and_half then mediumShade
  else if F32.gtb adjVal F32.zero then lightShade
  else blank.

(** The two loops over the matrix, writing to the buffer. *)
Definition drawRow (buffer : string) (row : list float32) : string :=
  (fold_left (fun buf v => buf ++ drawCell v) row buffer ++ newline)%string.

Definition DrawMatrix (matrix : list (list float32)) : string :=
  fold_left drawRow matrix EmptyString.

(** ** Strings *)

Local Open Scope string_scope.

Fixpoint inCutset (c : ascii) (cutset : string) : bool :=
  match cutset with
  | EmptyString => false
  | String d cutset' => Ascii.eqb c d || inCutset c cutset'
  end.

Fixpoint TrimLeft (cutset s : string) : string :=
  match s with
  | EmptyString => EmptyString
  | String c s' => if inCutset c cutset then TrimLeft cutset s' else s
  end.

Fixpoint TrimRight (cutset s : string) : string :=
  match s with
  | EmptyString => EmptyString
  | String c s' =>
      match TrimRight cutset s' with
      | EmptyString => if inCutset c cutset then EmptyString
                       else String c EmptyString
      | t => String c t
      end
  end.

(** [strings.Trim(s, cutset)] for a cutset of ASCII bytes. *)
Definition Trim (s cutset : string) : string :=
  TrimRight cutset (TrimLeft cutset s).

(** [s[n:]], which panics when [n] exceeds [len(s)]. *)
Definition sliceFromStr (s : string) (n : nat) : outcome string :=
  if (n <=? String.length s)%nat
  then Returns (substring n (String.length s - n) s)
  else Panics SliceBoundsOutOfRange.

(** The width in bytes of the first UTF-8 sequence of a non-empty string,
    as [utf8.DecodeRuneInString] reports it: an ill-formed or cut sequence
    has width 1. *)
Definition isCont (lo hi : nat) (c : option ascii) : bool :=
  match c with
  | Some c => (lo <=? nat_of_ascii c)%nat && (nat_of_ascii c <=? hi)%nat
  | None => false
  end.

Definition runeWidth (s : string) : nat :=
  match s with
  | EmptyString => 0%nat
  | String c s' =>
      let b0 := nat_of_ascii c in
      let b1 := String.get 0 s' in
      let b2 := String.get 1 s' in
      let b3 := String.get 2 s' in
      let in_range lo hi := ((lo <=? b0)%nat && (b0 <=? hi)%nat)%bool in
      if (b0 <? 128)%nat then 1%nat
      else if in_range 194%nat 223%nat then
        (if isCont 128 191 b1 then 2 else 1)%nat
      else if (b0 =? 224)%nat then
        (if isCont 160 191 b1 && isCont 128 191 b2 then 3 else 1)%nat
      else if (b0 =? 237)%nat then
        (if isCont 128 159 b1 && isCont 128 191 b2 then 3 else 1)%nat
      else if in_range 225%nat 239%nat then
        (if isCont 128 191 b1 && isCont 128 191 b2 then 3 else 1)%nat
      else if (b0 =? 240)%nat then
        (if isCont 144 191 b1 && isCont 128 191 b2 && isCont 128 191 b3
         then 4 else 1)%nat
      else if (b0 =? 244)%nat then
        (if isCont 128 143 b1 && isCont 128 191 b2 && isCont 128 191 b3
         then 4 else 1)%nat
      else if in_range 241%nat 243%nat then
        (if isCont 128 191 b1 && isCont 128 191 b2 && isCont 128 191 b3
         then 4 else 1)%nat
      else 1%nat
  end.

(** [strings.Split(s, sep)] for the empty [sep]: one part per UTF-8 sequence of [s]. [more] is
    the number of bytes of the current sequence still to come, [acc] the
    bytes of it already seen. *)
Fixpoint explode (more : nat) (acc s : string) : list string :=
  match s with
  | EmptyString => match acc with EmptyString => [] | _ => [acc] end
  | String c s' =>
      match more with
      | S (S k) => explode (S k) (acc ++ String c EmptyString) s'
      | S O => (acc ++ String c EmptyString) :: explode 0 EmptyString s'
      | O =>
          match runeWidth s with
          | S (S k) => explode (S k) (String c EmptyString) s'
          | _ => String c EmptyString :: explode 0 EmptyString s'
          end
      end
  end.

(** [strings.Split(s, sep)] for a non-empty [sep]: [skip] counts the bytes
    of a separator just matched that are still to pass, [acc] is the part
    being read. *)
Fixpoint splitOn (sep : string) (skip : nat) (acc s : string) : list string :=
  match s with
  | EmptyString => [acc]
  | String c s' =>
      match skip with
      | S k => splitOn sep k acc s'
      | O =>
          if String.prefix sep s
          then acc :: splitOn sep (String.length sep - 1) EmptyString s'
          else splitOn sep 0 (acc ++ String c EmptyString) s'
      end
  end.

Definition Split (s sep : string) : list string :=
  match sep with
  | EmptyString => explode 0 EmptyString s
  | _ => splitOn sep 0 EmptyString s
  end.

Definition lenZ {A} (l : list A) : Z := Z.of_nat (length l).

(** ** Binary decoder *)

Definition byteZ (b : byte) : Z := Z.of_N (Byte.to_N b).

(** [binary.LittleEndian.Uint32] and [Uint16] on the first bytes of [b]. *)
Definition Uint32 (b : list byte) : Z :=
  byteZ (nth 0 b Byte.x00) + 2 ^ 8 * byteZ (nth 1 b Byte.x00)
  + 2 ^ 16 * byteZ (nth 2 b Byte.x00) + 2 ^ 24 * byteZ (nth 3 b Byte.x00).

Definition Uint16 (b : list byte) : Z :=
  byteZ (nth 0 b Byte.x00) + 2 ^ 8 * byteZ (nth 1 b Byte.x00).

Definition decodeFloat32 (b : list byte) : float32 := F32.of_bits (Uint32 b).

Definition decodeVec (b : list byte) : Array3 float32 :=
  mkArray3 (decodeFloat32 b) (decodeFloat32 (skipn 4 b))
           (decodeFloat32 (skipn 8 b)).

(** One 50-byte record: normal, three vertices, attribute byte count. *)
Definition decodeTriangle (b : list byte) : Triangle :=
  mkTriangle (decodeVec b)
             (mkArray3 (decodeVec (skipn 12 b)) (decodeVec (skipn 24 b))
                       (decodeVec (skipn 36 b)))
             (Uint16 (skipn 48 b)).

Fixpoint decodeTriangles (n : nat) (b : list byte) : list Triangle :=
  match n with
  | O => []
  | S n' => decodeTriangle b :: decodeTriangles n' (skipn 50 b)
  end.

(** An [io.Reader]: the bytes it still delivers and the error it reports
    after them ([EOF] at the end of a file). *)
Record Reader : Type := mkReader { pending : list byte; final : error }.

(** The error of a read that finds too few bytes: the error of the
    stream, [io.EOF] turned into [io.ErrUnexpectedEOF] when some bytes were
    read. *)
Definition shortReadError (pending : list byte) (final : error) : error :=
  match pending, final with
  | _ :: _, EOF => ErrUnexpectedEOF
  | _, e => e
  end.

(** [io.ReadFull(r, buf)] for [len(buf) = n]: the bytes read, the error and
    the reader afterwards. *)
Definition ReadFull (r : Reader) (n : nat)
  : list byte * option error * Reader :=
  match n with
  | O => ([], None, r)
  | _ =>
      if (n <=? length (pending r))%nat
      then (firstn n (pending r), None,
            mkReader (skipn n (pending r)) (final r))
      else
        (pending r, Some (shortReadError (pending r) (final r)),
         mkReader [] (final r))
  end.

(** [binary.Read(r, binary.LittleEndian, &triangles)] for a slice of
    [len(triangles)] records of 50 bytes: all of them are read at once, and
    the slice is left as it was when they cannot be. *)
Definition binaryRead (r : Reader) (triangles : list Triangle)
  : list Triangle * option error * Reader :=
  let '(buf, err, r') := ReadFull r (50 * length triangles) in
  match err with
  | Some e => (triangles, Some e, r')
  | None => (decodeTriangles (length triangles) buf, None, r')
  end.

(** The size in bytes of a [Triangle] in memory: its 50 bytes of fields,
    aligned to 4. The count of a file is a [uint32], so
    [make([]Triangle, n)] asks for less than 52 * 2^32 bytes, which is
    within [maxAlloc]: the allocation of the decoders returns [n] zero
    triangles and cannot panic. *)
Definition sizeofTriangle : Z := 52.

Definition trimHeader (b : list byte) : string :=
  Trim (string_of_list_byte b) (String "000" EmptyString).

Definition CreateFromBinarySTL (r : Reader) : Model * option error * Reader :=
  let '(header, err, r1) := ReadFull r 84 in
  match err with
  | Some e => (zeroModel, Some e, r1)
  | None =>
      let Header := trimHeader (firstn 80 header) in
      let NumTriangles := Uint32 (skipn 80 header) in
      let Triangles := replicate (Z.to_nat NumTriangles) zeroTriangle in
      let '(Triangles', err, r2) := binaryRead r1 Triangles in
      match err with
      | Some e => (mkModel Header NumTriangles Triangles', Some e, r2)
      | None => (mkModel Header NumTriangles Triangles', None, r2)
      end
  end.

(** A byte slice: its backing array from the slice's first byte on (whose
    length is the capacity) and its length. *)
Record ByteSlice : Type := mkByteSlice { backing : list byte; len : nat }.

Definition cap (s : ByteSlice) : nat := length (backing s).

(** [s[lo:hi]] needs [lo <= hi <= cap(s)]; [s[lo:]] needs [lo <= len(s)]. *)
Definition sliceRange (s : ByteSlice) (lo hi : nat) : outcome (list byte) :=
  if ((lo <=? hi)%nat && (hi <=? cap s)%nat)%bool
  then Returns (firstn (hi - lo) (skipn lo (backing s)))
  else Panics SliceBoundsOutOfRange.

Definition sliceFrom (s : ByteSlice) (lo : nat) : outcome (list byte) :=
  if (lo <=? len s)%nat
  then Returns (firstn (len s - lo) (skipn lo (backing s)))
  else Panics SliceBoundsOutOfRange.

Definition CreateFromByteSlice (byteSlice : ByteSlice)
  : outcome (Model * option error) :=
  header <- sliceRange byteSlice 0 80 ;;
  let Header := trimHeader header in
  count <- sliceRange byteSlice 80 84 ;;
  let NumTriangles := Uint32 count in
  let Triangles := replicate (Z.to_nat NumTriangles) zeroTriangle in
  rest <- sliceFrom byteSlice 84 ;;
  let buf := mkReader rest EOF in
  let '(Triangles', err, _) := binaryRead buf Triangles in
  match err with
  | Some e => Returns (mkModel Header NumTriangles Triangles', Some e)
  | None => Returns (mkModel Header NumTriangles Triangles', None)
  end.

(** ** ASCII decoder *)

(** A [bufio.Reader]: the text it still delivers and the error after it. *)
Record BufReader : Type := mkBufReader { text : string; failure : error }.

(** The text up to and with the first line feed, and the text after it. *)
Fixpoint cutLine (s : string) : option (string * string) :=
  match s with
  | EmptyString => None
  | String c s' =>
      if Ascii.eqb c "010" then Some (String c EmptyString, s')
      else match cutLine s' with
           | Some (l, rest) => Some (String c l, rest)
           | None => None
           end
  end.

(** [r.ReadString('\n')]: without a line feed, what is left is returned
    with the reader's error. *)
Definition ReadString (r : BufReader) : string * option error * BufReader :=
  match cutLine (text r) with
  | Some (l, rest) => (l, None, mkBufReader rest (failure r))
  | None => (text r, Some (failure r), mkBufReader EmptyString (failure r))
  end.

Definition lineCutset : string :=
  String " " (String "009" (String "010" (String "013" EmptyString))).

Definition readAndTreatLine (r : BufReader) (mustStartWith partSplitters : string)
    (expectedPartsLength : Z) : list string * option error * BufReader :=
  let '(line, err, r') := ReadString r in
  match err with
  | Some e => ([], Some e, r')
  | None =>
      let line := Trim line lineCutset in
      if (String.length line <? String.length mustStartWith)%nat
      then ([], Some ErrLineShorter, r')
      else if negb (String.eqb (substring 0 (String.length mustStartWith) line)
                               mustStartWith)
      then ([], Some ErrLineDifferent, r')
      else
        let line := substring (String.length mustStartWith)
                      (String.length line - String.length mustStartWith) line in
        let lineParts := Split line partSplitters in
        if negb (lenZ lineParts =? expectedPartsLength)%Z
        then (lineParts, Some ErrNumberOfParts, r')
        else (lineParts, None, r')
  end.

Section ASCII.

(** [float32(v)] for [v, err := strconv.ParseFloat(s, 32)] without error,
    [None] when [err] is not nil. *)
Variable ParseFloat : string -> option float32.

(** The loop that parses the three fields of a line into an array. *)
Definition parseFields (parts : list string) : Array3 float32 + error :=
  fold_left
    (fun (st : Array3 float32 + error) (i : Z) =>
       match st with
       | inr e => inr e
       | inl a =>
           let field := nth (Z.to_nat i) parts EmptyString in
           match ParseFloat field with
           | None => inr (ErrParseFloat field)
           | Some f => inl (set3 a i f)
           end
       end)
    range3 (inl zeroVec).

(** The loop over the three [vertex] lines. *)
Definition readVertices (r : BufReader)
  : (Array3 (Array3 float32) + error) * BufReader :=
  fold_left
    (fun (st : (Array3 (Array3 float32) + error) * BufReader) (j : Z) =>
       match st with
       | (inr e, r) => (inr e, r)
       | (inl vs, r) =>
           let '(vertexParts, err, r') :=
             readAndTreatLine r "vertex " " " 3 in
           match err with
           | Some e => (inr e, r')
           | None =>
               match parseFields vertexParts with
               | inr e => (inr e, r')
               | inl v => (inl (set3 vs j v), r')
               end
           end
       end)
    range3 (inl (mkArray3 zeroVec zeroVec zeroVec), r).

(** One turn of the loop after its [facet normal] line was matched: the
    triangle, or the error the decoder returns. *)
Definition readFacet (normalParts : list string) (r : BufReader)
  : (Triangle + error) * BufReader :=
  match parseFields normalParts with
  | inr e => (inr e, r)
  | inl normal =>
      let '(_, err, r1) := readAndTreatLine r "outer loop" EmptyString 0 in
      match err with
      | Some e => (inr e, r1)
      | None =>
          match readVertices r1 with
          | (inr e, r2) => (inr e, r2)
          | (inl vertices, r2) =>
              let '(_, err, r3) := readAndTreatLine r2 "endloop" EmptyString 0 in
              match err with
              | Some e => (inr e, r3)
              | None =>
                  let '(_, err, r4) := readAndTreatLine r3 "endfacet" EmptyString 0 in
                  match err with
                  | Some e => (inr e, r4)
                  | None => (inl (mkTriangle normal vertices 0), r4)
                  end
              end
          end
      end
  end.

(** [m.Triangles = append(m.Triangles, aTriangle); m.NumTriangles++]. *)
Definition appendTriangle (m : Model) (t : Triangle) : Model :=
  mkModel (Header m) (wrap32 (NumTriangles m + 1)) (Triangles m ++ [t]).

(** The [for] loop; [fuel] bounds the number of turns, and [None] is a
    loop cut short by it. *)
Fixpoint facetLoop (fuel : nat) (m : Model) (r : BufReader)
  : option (Model * option error * BufReader) :=
  match fuel with
  | O => None
  | S fuel' =>
      let '(normalParts, err, r1) :=
        readAndTreatLine r "facet normal " " " 3 in
      match err with
      | Some _ => Some (m, None, r1)
      | None =>
          match readFacet normalParts r1 with
          | (inr e, r2) => Some (m, Some e, r2)
          | (inl aTriangle, r2) =>
              facetLoop fuel' (appendTriangle m aTriangle) r2
          end
      end
  end.

Definition headerPrefix : string := "Imported from ASCII STL by stl2ascii - ".

(** Every turn of the loop reads at least one byte, so one turn more than
    there are bytes is fuel enough. *)
Definition CreateFromASCIISTL (r : BufReader)
  : option (outcome (Model * option error * BufReader)) :=
  let '(Header, err, r1) := ReadString r in
  match err with
  | Some e => Some (Returns (zeroModel, Some e, r1))
  | None =>
      match sliceFromStr Header 5 with
      | Panics p => Some (Panics p)
      | Returns name =>
          let m :=
            mkModel (headerPrefix ++ Trim name (String " " (String "010" EmptyString)))
                    0 [] in
          match facetLoop (S (String.length (text r1))) m r1 with
          | Some res => Some (Returns res)
          | None => None
          end
      end
  end.

End ASCII.

(** ** Vocabulary of the statements *)

Local Close Scope string_scope.

(** The vertices of a mesh in file order, and their coordinates on axis
    [k]. *)
Definition vertices (m : Model) : list (Array3 float32) :=
  flat_map (fun t => elems3 (Vertices t)) (Triangles m).

Definition coords (m : Model) (k : Z) : list float32 :=
  map (fun v => get3 v k) (vertices m).

(** A finite number of the type [float32]: neither NaN nor an infinity. *)
Definition finite32 (c : float32) : bool := F32.valid c && F32.is_finite c.

Definition allFinite (m : Model) : bool :=
  forallb (fun v => forallb finite32 (elems3 v)) (vertices m).

(** What one coordinate does to the running minimum and maximum of its
    axis. *)
Definition keepBy (better : float32 -> float32 -> bool) (acc c : float32)
  : float32 :=
  if better c acc then c else acc.
Definition keepMin : float32 -> float32 -> float32 := keepBy F32.ltb.
Definition keepMax : float32 -> float32 -> float32 := keepBy F32.gtb.

(** Sample meshes. *)
Definition vec (x y z : Z) : Array3 float32 :=
  mkArray3 (F32.of_int x) (F32.of_int y) (F32.of_int z).

Definition sampleTriangle : Triangle :=
  mkTriangle (vec 0 0 1) (mkArray3 (vec 0 0 0) (vec 1 2 3) (vec 4 0 1)) 0.

Definition sampleMesh : Model := mkModel EmptyString 1 [sampleTriangle].

Definition nanVec : Array3 float32 := mkArray3 S754_nan S754_nan S754_nan.

(** A mesh as the binary decoder builds it from records whose floats are
    quiet NaNs (bit pattern 0x7fc00000). *)
Definition nanMesh : Model :=
  mkModel EmptyString 1 [mkTriangle nanVec (mkArray3 nanVec nanVec nanVec) 0].

(** A mesh whose x coordinates are a NaN, the number 1 and plus
    infinity. *)
Definition holedMesh : Model :=
  mkModel EmptyString 1
    [mkTriangle (vec 0 0 1)
       (mkArray3 (mkArray3 S754_nan (F32.of_int 0) (F32.of_int 0))
                 (vec 1 2 3)
                 (mkArray3 (S754_infinity false) (F32.of_int 0)
                           (F32.of_int 1)))
       0].

(** The rendering as the specification words it: a line per row, ended by
    a line feed, a glyph per column, the glyph given by the threshold table
    on the value times 4. *)
Inductive shade : Type := Heavy | Medium | Light | Blank.

Definition glyph (l : shade) : string :=
  match l with
  | Heavy => heavyShade
  | Medium => mediumShade
  | Light => lightShade
  | Blank => blank
  end.

Definition shadeOf (x : float32) : shade :=
  if F32.gtb x F32.three then Heavy
  else if F32.gtb x F32.one_and_half then Medium
  else if F32.gtb x F32.zero then Light
  else Blank.

Definition joinAll (l : list string) : string :=
  fold_right String.append EmptyString l.

Definition renderLine (row : list float32) : string :=
  String.append
    (joinAll (map (fun v => glyph (shadeOf (F32.mul v F32.four))) row))
    newline.

Definition render (matrix : list (list float32)) : string :=
  joinAll (map renderLine matrix).

Definition isZero (v : float32) : bool :=
  match v with S754_zero _ => true | _ => false end.

Definition blankLine (row : list float32) : string :=
  String.append (joinAll (map (fun _ => blank) row)) newline.

(** The projection as the specification words it, for a mesh [m], a
    resolution [size] and a direction [p]: the grid coordinates of a vertex,
    its cell and its normalised depth. *)
Section ProjectionVocabulary.

Variable intOfUnrepresentable : float32 -> Z.
Variable m : Model.
Variable size : Z.
Variable p : ProjectFrom.

Definition axisX : Z := fst (fst (GetAxisForProjection p)).
Definition axisY : Z := snd (fst (GetAxisForProjection p)).
Definition axisDepth : Z := snd (GetAxisForProjection p).

Definition scaleOf : float32 :=
  projectScale size axisX axisY (getDimensions m).

Definition gridX (v : Array3 float32) : Z :=
  int_of_float32 intOfUnrepresentable
    (F32.div (F32.sub (get3 v axisX) (get3 (fst (getMinsMaxs m)) axisX))
             scaleOf).

Definition gridY (v : Array3 float32) : Z :=
  int_of_float32 intOfUnrepresentable
    (F32.div (F32.sub (get3 v axisY) (get3 (fst (getMinsMaxs m)) axisY))
             scaleOf).

Definition cellRow (v : Array3 float32) : Z :=
  Z.quot (wrap (size - gridX v)) 2.

Definition cellCol (v : Array3 float32) : Z := gridY v.

Definition depthOf (v : Array3 float32) : float32 :=
  F32.div (F32.sub (get3 v axisDepth)
                   (get3 (fst (getMinsMaxs m)) axisDepth))
          (get3 (getDimensions m) axisDepth).

(** The cell of the vertex is a cell of the grid of [size / 2 + 1] rows
    and [size + 1] columns. *)
Definition inGrid (v : Array3 float32) : bool :=
  (0 <=? cellRow v) && (cellRow v <? Z.quot size 2 + 1)
  && (0 <=? cellCol v) && (cellCol v <? size + 1).

(** The vertex maps to the cell of row [i] and column [j]. *)
Definition hitsCell (i j : Z) (v : Array3 float32) : bool :=
  (cellRow v =? i) && (cellCol v =? j).

(** The depths of the vertices that map to the cell, in file order. *)
Definition depthsAt (i j : Z) : list float32 :=
  map depthOf (List.filter (hitsCell i j) (vertices m)).

End ProjectionVocabulary.

(** The cell of row [i] and column [j] of a grid. *)
Definition cellAt (g : list (list float32)) (i j : Z) : option float32 :=
  match g !! Z.to_nat i with
  | Some row => row !! Z.to_nat j
  | None => None
  end.

(** [x] is the greatest of the values [l]. *)
Definition isMaxOf (x : float32) (l : list float32) : Prop :=
  In x l /\ forall d, In d l -> F32.leb d x = true.

(** The value of [int(f)] on amd64 for an [f] outside the range of [int]. *)
Definition intOfUnrepresentable_amd64 (f : float32) : Z := intMin.



(** A mesh in the plane x = 0: flat along the depth axis of the side
    view. *)
Definition flatMesh : Model :=
  mkModel EmptyString 1
    [mkTriangle (vec 1 0 0) (mkArray3 (vec 0 0 0) (vec 0 2 3) (vec 0 0 1)) 0].

(** All the coordinates of axis [k] are numerically equal to [c]. *)
Definition flatAlong (m : Model) (k : Z) (c : float32) : bool :=
  finite32 c && forallb (fun d => F32.eqb d c) (coords m k).

(** A grid of [rows] rows of [cols] cells. *)
Definition shaped (rows cols : nat) (g : list (list float32)) : Prop :=
  length g = rows /\ forall row, In row g -> length row = cols.

(** The side view of [sampleMesh] at resolution 4. *)
Definition sampleGrid : list (list float32) :=
  [[F32.zero; F32.zero; S754_finite false 8388608 (-25); F32.zero; F32.zero];
   [F32.one; F32.zero; F32.zero; F32.zero; F32.zero];
   [F32.zero; F32.zero; F32.zero; F32.zero; F32.zero]].

(** Complete turns of the loop of the ASCII decoder: from the model [m]
    and the reader [r] at the head of the loop, zero or more facets are
    read and appended, which leaves [m'] and [r'] at the head of the
    loop. *)
Inductive turns (ParseFloat : string -> option float32)
  : Model -> BufReader -> Model -> BufReader -> Prop :=
| turns_none m r : turns ParseFloat m r m r
| turns_facet m r normalParts r1 aTriangle r2 m' r' :
    readAndTreatLine r "facet normal " " " 3 = (normalParts, None, r1) ->
    readFacet ParseFloat normalParts r1 = (inl aTriangle, r2) ->
    turns ParseFloat (appendTriangle m aTriangle) r2 m' r' ->
    turns ParseFloat m r m' r'.

(** The triangles of the facets that complete turns of the loop read, in
    file order, from the reader [r] at the head of the loop to the reader
    [r'] at the head of the loop. *)
Inductive facetsRead (ParseFloat : string -> option float32)
  : BufReader -> list Triangle -> BufReader -> Prop :=
| facetsRead_nil r : facetsRead ParseFloat r [] r
| facetsRead_cons r normalParts r1 aTriangle r2 ts r' :
    readAndTreatLine r "facet normal " " " 3 = (normalParts, None, r1) ->
    readFacet ParseFloat normalParts r1 = (inl aTriangle, r2) ->
    facetsRead ParseFloat r2 ts r' ->
    facetsRead ParseFloat r (aTriangle :: ts) r'.

(** A parser of the one-digit numbers, enough for the sample files. *)
Definition parseDigit (s : string) : option float32 :=
  match s with
  | String c EmptyString =>
      let n := (nat_of_ascii c - 48)%nat in
      if ((48 <=? nat_of_ascii c)%nat && (n <=? 9)%nat)%bool
      then Some (F32.of_int (Z.of_nat n)) else None
  | _ => None
  end.

Definition nl : string := String "010" EmptyString.

(** The single-triangle file of the specification. *)
Definition sampleASCII : string :=
  ("solid t" ++ nl ++ "  facet normal 0 0 1" ++ nl ++ "    outer loop" ++ nl
   ++ "      vertex 0 0 0" ++ nl ++ "      vertex 1 0 0" ++ nl
   ++ "      vertex 0 1 0" ++ nl ++ "    endloop" ++ nl ++ "  endfacet" ++ nl
   ++ "endsolid t" ++ nl)%string.

Definition sampleASCIITriangle : Triangle :=
  mkTriangle (vec 0 0 1) (mkArray3 (vec 0 0 0) (vec 1 0 0) (vec 0 1 0)) 0.

(** The line the next read delivers, trimmed as the line helper trims it;
    [None] at the end of the stream. *)
Definition nextLine (r : BufReader) : option string :=
  match cutLine (text r) with
  | Some (l, _) => Some (Trim l lineCutset)
  | None => None
  end.

Definition headerCutset : string := String " " (String "010" EmptyString).

(** A file whose first line is not a [solid] line. *)
Definition helloASCII : string := ("hello world" ++ nl)%string.

(** The triangle count a binary file declares in its bytes 80 to 83. *)
Definition declaredCount (bytes : list byte) : Z :=
  Uint32 (skipn 80 (firstn 84 bytes)).

(** The floats of a triangle: its normal and the coordinates of its
    vertices. *)
Definition floatsOf (t : Triangle) : list float32 :=
  elems3 (Normal t) ++ flat_map elems3 (elems3 (Vertices t)).

(** The twelve 32-bit words at the head of a record, little-endian: those
    of the normal, then those of the three vertices. *)
Definition recordWords (rec : list byte) : list Z :=
  map (fun k => Uint32 (skipn (4 * k) rec)) (seq 0 12).

(** The three fields of a 32-bit pattern: sign, exponent, mantissa. *)
Definition signBit (b : Z) : bool := Z.testbit b 31.
Definition expField (b : Z) : Z := Z.land (Z.shiftr b 23) 255.
Definition mantField (b : Z) : Z := Z.land b 8388607.

(** A record whose first words are a quiet NaN, plus infinity and minus
    infinity (0x7fc00000, 0x7f800000, 0xff800000), and the stream of a
    file that holds this record alone. *)
Definition specialsRecord : list byte :=
  [Byte.x00; Byte.x00; Byte.xc0; Byte.x7f;
   Byte.x00; Byte.x00; Byte.x80; Byte.x7f;
   Byte.x00; Byte.x00; Byte.x80; Byte.xff] ++ repeat Byte.x00 38.

Definition specialsFile : list byte :=
  repeat Byte.x41 80 ++ [Byte.x01; Byte.x00; Byte.x00; Byte.x00]
  ++ specialsRecord.

(** The number of bytes [c] in a string. *)
Fixpoint countChar (c : ascii) (s : string) : nat :=
  match s with
  | EmptyString => 0%nat
  | String d s' => ((if Ascii.eqb d c then 1 else 0) + countChar c s')%nat
  end.

Definition space : string := String " " EmptyString.

(** *** Well-formed ASCII files *)






(** A line of text: indentation, body, line feed. *)
Definition lineOf (indent body : string) : string :=
  ((indent ++ body) ++ nl)%string.

Definition fieldBody (kw : string) (f : Array3 string) : string :=
  (kw ++ a0 f ++ " " ++ a1 f ++ " " ++ a2 f)%string.

(** The fields of a facet as they stand in the file. *)
Record FacetFields : Type := mkFacetFields {
  normalFields : Array3 string;
  vertexFields : Array3 (Array3 string)
}.


(** The seven lines of a facet, followed by the text [after]. *)
Definition facetText (indent : string) (f : FacetFields) (after : string)
  : string :=
  (lineOf indent (fieldBody "facet normal " (normalFields f))
   ++ lineOf indent "outer loop"
   ++ lineOf indent (fieldBody "vertex " (a0 (vertexFields f)))
   ++ lineOf indent (fieldBody "vertex " (a1 (vertexFields f)))
   ++ lineOf indent (fieldBody "vertex " (a2 (vertexFields f)))
   ++ lineOf indent "endloop"
   ++ lineOf indent "endfacet"
   ++ after)%string.

(** A file: the [solid] line, the facets, and whatever follows them. *)
Definition solidText (name indent : string) (fs : list FacetFields)
    (trailer : string) : string :=
  (lineOf "solid" name ++ fold_right (facetText indent) trailer fs)%string.




Definition fields3 (a b c : string) : Array3 string := mkArray3 a b c.

Definition sampleFacet : FacetFields :=
  mkFacetFields (fields3 "0" "0" "1")
    (mkArray3 (fields3 "0" "0" "0") (fields3 "1" "0" "0")
              (fields3 "0" "1" "0")).

(** * Properties *)

(** ** The order of floats *)

Module F32Facts.

Import F32.

Lemma pos_compare_cont_eq (p q : positive) :
  PosDef.Pos.compare_cont Eq p q = Pos.compare p q.
Proof. reflexivity. Qed.

Ltac order_cases :=
  rewrite ?pos_compare_cont_eq in *;
  repeat match goal with
    | |- context [Z.compare ?a ?b] => destruct (Z.compare_spec a b)
    | H : context [Z.compare ?a ?b] |- _ => destruct (Z.compare_spec a b)
    | |- context [Pos.compare ?a ?b] => destruct (Pos.compare_spec a b)
    | H : context [Pos.compare ?a ?b] |- _ => destruct (Pos.compare_spec a b)
    end;
  simpl in *; try discriminate; try reflexivity; try lia.

Ltac by_cases3 a b c :=
  destruct a as [[]|[]| |[] ? ?], b as [[]|[]| |[] ? ?],
           c as [[]|[]| |[] ? ?];
  simpl; try discriminate; try reflexivity;
  rewrite ?pos_compare_cont_eq; intros; order_cases.

Lemma ltb_trans (a b c : float32) :
  ltb a b = true -> ltb b c = true -> ltb a c = true.
Proof. unfold ltb, SFltb, SFcompare. by_cases3 a b c. Qed.

Lemma leb_trans (a b c : float32) :
  leb a b = true -> leb b c = true -> leb a c = true.
Proof. unfold leb, SFleb, SFcompare. by_cases3 a b c. Qed.

Lemma ltb_leb_trans (a b c : float32) :
  ltb a b = true -> leb b c = true -> ltb a c = true.
Proof. unfold ltb, leb, SFltb, SFleb, SFcompare. by_cases3 a b c. Qed.

Lemma leb_ltb_trans (a b c : float32) :
  leb a b = true -> ltb b c = true -> ltb a c = true.
Proof. unfold ltb, leb, SFltb, SFleb, SFcompare. by_cases3 a b c. Qed.

Lemma ltb_leb (a b : float32) : ltb a b = true -> leb a b = true.
Proof.
  unfold ltb, leb, SFltb, SFleb. destruct (SFcompare a b) as [[]|];
    simpl; congruence.
Qed.

Lemma ltb_irrefl (a : float32) : ltb a a = false.
Proof.
  unfold ltb, SFltb, SFcompare. destruct a as [[]|[]| |[] ? ?]; simpl;
    try reflexivity; rewrite ?pos_compare_cont_eq, Z.compare_refl,
    Pos.compare_refl; reflexivity.
Qed.

Lemma leb_refl (a : float32) : is_nan a = false -> leb a a = true.
Proof.
  unfold leb, SFleb, SFcompare. destruct a as [[]|[]| |[] ? ?]; simpl;
    try discriminate; try reflexivity; intros _;
    rewrite ?pos_compare_cont_eq, Z.compare_refl, Pos.compare_refl;
    reflexivity.
Qed.

(** The order is total on the floats that are not NaN. *)
Lemma not_ltb_leb (a b : float32) :
  is_nan a = false -> is_nan b = false -> ltb a b = false -> leb b a = true.
Proof.
  unfold ltb, leb, SFltb, SFleb, SFcompare.
  destruct a as [[]|[]| |[] ? ?], b as [[]|[]| |[] ? ?]; simpl;
    try discriminate; try reflexivity; rewrite ?pos_compare_cont_eq;
    intros; order_cases.
Qed.

Lemma ltb_not_nan_l (a b : float32) : ltb a b = true -> is_nan a = false.
Proof. destruct a; try reflexivity. discriminate. Qed.

Lemma ltb_not_nan_r (a b : float32) : ltb a b = true -> is_nan b = false.
Proof. destruct a as [[]|[]| |[] ? ?], b; try reflexivity; discriminate. Qed.

Lemma leb_not_nan_r (a b : float32) : leb a b = true -> is_nan b = false.
Proof. destruct a as [[]|[]| |[] ? ?], b; try reflexivity; discriminate. Qed.

Lemma ltb_asym (a b : float32) : ltb a b = true -> ltb b a = false.
Proof.
  intros H. destruct (ltb b a) eqn:E; [|reflexivity].
  pose proof (ltb_trans _ _ _ H E) as F. rewrite ltb_irrefl in F.
  discriminate.
Qed.

(** Numerically equal floats are the same float, or two zeros. *)
Lemma eqb_inv (a b : float32) :
  eqb a b = true ->
  a = b \/ exists s t, a = S754_zero s /\ b = S754_zero t.
Proof.
  unfold eqb, SFeqb, SFcompare.
  destruct a as [s|s| |s m e], b as [t|t| |t n f]; simpl; intros H;
    try discriminate H;
    try (right; eauto; fail);
    try (destruct s, t; try discriminate H; left; reflexivity);
    try (destruct s; discriminate H); try (destruct t; discriminate H).
  rewrite ?pos_compare_cont_eq in H.
  destruct s, t; try discriminate H;
    destruct (Z.compare_spec e f); try discriminate H;
    destruct (Pos.compare_spec m n); try discriminate H; subst; auto.
Qed.

Lemma leb_antisym (a b : float32) :
  leb a b = true -> leb b a = true -> eqb a b = true.
Proof.
  unfold leb, eqb, SFleb, SFeqb, SFcompare.
  destruct a as [[]|[]| |[] ? ?], b as [[]|[]| |[] ? ?]; simpl;
    try discriminate; try reflexivity; rewrite ?pos_compare_cont_eq;
    intros; order_cases.
Qed.

Lemma leb_cases (a b : float32) :
  leb a b = true -> ltb a b = true \/ eqb a b = true.
Proof.
  unfold leb, ltb, eqb, SFleb, SFltb, SFeqb.
  destruct (SFcompare a b) as [[]|]; auto; discriminate.
Qed.

(** At most [MaxFloat32] is below it or is [MaxFloat32] itself; and the
    same at [-MaxFloat32]. *)
Lemma leb_max_cases (c : float32) :
  leb c MaxFloat32 = true -> ltb c MaxFloat32 = true \/ c = MaxFloat32.
Proof.
  intros H. destruct (leb_cases _ _ H) as [L|E]; [auto|].
  destruct (eqb_inv _ _ E) as [->|(s & t & _ & Hz)]; [auto|].
  unfold MaxFloat32 in Hz. discriminate Hz.
Qed.

Lemma leb_min_cases (c : float32) :
  leb (opp MaxFloat32) c = true ->
  gtb c (opp MaxFloat32) = true \/ c = opp MaxFloat32.
Proof.
  intros H. destruct (leb_cases _ _ H) as [L|E]; [auto|].
  destruct (eqb_inv _ _ E) as [<-|(s & t & Hz & _)]; [auto|].
  unfold MaxFloat32 in Hz. discriminate Hz.
Qed.

Lemma digits2_pos_bound (m : positive) :
  (Z.pos m < 2 ^ Z.pos (digits2_pos m))%Z.
Proof.
  induction m as [m IH|m IH|]; simpl digits2_pos;
    rewrite ?Pos2Z.inj_succ, ?Z.pow_succ_r by lia; lia.
Qed.

(** The order of two finite floats of the same sign, read off their
    exponents and mantissas. *)
Lemma ltb_finite_pos (m m' : positive) (e e' : Z) :
  (e < e' \/ (e = e' /\ Z.pos m < Z.pos m'))%Z ->
  ltb (S754_finite false m e) (S754_finite false m' e') = true.
Proof.
  unfold ltb, SFltb, SFcompare. rewrite pos_compare_cont_eq.
  intros [H|[-> H]].
  - apply Z.compare_lt_iff in H. rewrite H. reflexivity.
  - rewrite Z.compare_refl. apply Pos2Z.pos_lt_pos in H.
    apply Pos.compare_lt_iff in H. rewrite H. reflexivity.
Qed.

Lemma ltb_finite_neg (m m' : positive) (e e' : Z) :
  (e < e' \/ (e = e' /\ Z.pos m < Z.pos m'))%Z ->
  ltb (S754_finite true m' e') (S754_finite true m e) = true.
Proof.
  unfold ltb, SFltb, SFcompare. rewrite pos_compare_cont_eq.
  intros [H|[-> H]].
  - apply Z.compare_gt_iff in H. rewrite H. reflexivity.
  - rewrite Z.compare_refl. apply Pos2Z.pos_lt_pos in H.
    apply Pos.compare_gt_iff in H. rewrite H. reflexivity.
Qed.

(** A finite binary32 number lies between [-MaxFloat32] and
    [MaxFloat32]. *)
Lemma valid_finite_max (s : bool) (m : positive) (e : Z) :
  valid (S754_finite s m e) = true ->
  (e < 104 \/ (e = 104 /\ Z.pos m <= 16777215))%Z.
Proof.
  unfold valid, valid_binary, bounded, canonical_mantissa, fexp, emin, prec,
    emax.
  intros H. apply andb_prop in H as [H1 H2].
  apply Z.eqb_eq in H1. apply Z.leb_le in H2.
  pose proof (digits2_pos_bound m) as B.
  assert (D : (Z.pos (digits2_pos m) <= 24)%Z) by lia.
  assert (P : (2 ^ Z.pos (digits2_pos m) <= 2 ^ 24)%Z)
    by (apply Z.pow_le_mono_r; lia).
  change (2 ^ 24)%Z with 16777216%Z in P.
  generalize dependent (2 ^ Z.pos (digits2_pos m))%Z. intros q B P.
  clear H1. lia.
Qed.

Lemma valid_finite_below_max (c : float32) :
  valid c = true -> is_finite c = true ->
  ltb c MaxFloat32 = true \/ c = MaxFloat32.
Proof.
  destruct c as [s|s| |s m e]; try discriminate.
  - intros _ _. left. destruct s; reflexivity.
  - intros V _. apply valid_finite_max in V.
    destruct s; [left; reflexivity|].
    destruct V as [V|[-> V]].
    + left. apply ltb_finite_pos. left. exact V.
    + destruct (Z.eq_dec (Z.pos m) 16777215) as [E|N].
      * right. injection E as ->. reflexivity.
      * left. apply ltb_finite_pos. right. split; [reflexivity|lia].
Qed.

Lemma valid_finite_above_min (c : float32) :
  valid c = true -> is_finite c = true ->
  gtb c (opp MaxFloat32) = true \/ c = opp MaxFloat32.
Proof.
  destruct c as [s|s| |s m e]; try discriminate.
  - intros _ _. left. destruct s; reflexivity.
  - intros V _. apply valid_finite_max in V.
    destruct s; [|left; reflexivity].
    destruct V as [V|[-> V]].
    + left. apply ltb_finite_neg. left. exact V.
    + destruct (Z.eq_dec (Z.pos m) 16777215) as [E|N].
      * right. injection E as ->. reflexivity.
      * left. apply ltb_finite_neg. right. split; [reflexivity|lia].
Qed.

End F32Facts.

(** ** Viewing directions *)

(** C5: the axis table of [GetAxisForProjection]: side view (X = 2, Y = 1,
    depth = 0), front view (X = 2, Y = 0, depth = 1), top view (X = 1,
    Y = 0, depth = 2). *)
Theorem GetAxisForProjection_table :
  GetAxisForProjection ProjectFromSide = (2, 1, 0) /\
  GetAxisForProjection ProjectFromFront = (2, 0, 1) /\
  GetAxisForProjection ProjectFromTop = (1, 0, 2).
Proof. repeat split. Qed.

(** Whatever the direction, the three indices are indices of an array of
    length 3. *)
Lemma GetAxisForProjection_range (p : ProjectFrom) :
  let '(x, y, v) := GetAxisForProjection p in
  In x range3 /\ In y range3 /\ In v range3.
Proof.
  unfold GetAxisForProjection, range3.
  destruct (p =? ProjectFromSide); [simpl; tauto|].
  destruct (p =? ProjectFromFront); [simpl; tauto|].
  destruct (p =? ProjectFromTop); simpl; tauto.
Qed.

(** ** Bounding box *)

Section RunningExtremum.

(** [better c acc]: the coordinate [c] replaces the extremum [acc];
    [upto a b]: [a] is at least as extreme as [b]. *)
Variable better upto : float32 -> float32 -> bool.

Hypothesis better_upto : forall a b, better a b = true -> upto a b = true.
Hypothesis better_not_nan : forall a b,
  better a b = true -> F32.is_nan a = false.
Hypothesis upto_refl : forall a, F32.is_nan a = false -> upto a a = true.
Hypothesis upto_trans : forall a b c,
  upto a b = true -> upto b c = true -> upto a c = true.
Hypothesis upto_total : forall a b,
  F32.is_nan a = false -> F32.is_nan b = false ->
  better a b = false -> upto b a = true.

Local Abbreviation keep := (keepBy better).

Lemma keep_not_nan (acc c : float32) :
  F32.is_nan acc = false -> F32.is_nan (keep acc c) = false.
Proof.
  intros H. unfold keepBy. destruct (better c acc) eqn:E; eauto.
Qed.

Lemma keep_upto_acc (acc c : float32) :
  F32.is_nan acc = false -> upto (keep acc c) acc = true.
Proof.
  intros H. unfold keepBy. destruct (better c acc) eqn:E; eauto.
Qed.

Lemma keep_upto_new (acc c : float32) :
  F32.is_nan acc = false -> F32.is_nan c = false ->
  upto (keep acc c) c = true.
Proof.
  intros H1 H2. unfold keepBy. destruct (better c acc) eqn:E; eauto.
Qed.

Lemma fold_keep_not_nan (l : list float32) : forall acc,
  F32.is_nan acc = false -> F32.is_nan (fold_left keep l acc) = false.
Proof.
  induction l as [|x l IH]; intros acc H; simpl; auto using keep_not_nan.
Qed.

Lemma fold_keep_upto_acc (l : list float32) : forall acc,
  F32.is_nan acc = false -> upto (fold_left keep l acc) acc = true.
Proof.
  induction l as [|x l IH]; intros acc H; simpl.
  - auto.
  - eapply upto_trans; [apply IH; auto using keep_not_nan|].
    auto using keep_upto_acc.
Qed.

(** The extremum bounds every coordinate that is a number. *)
Lemma fold_keep_bound (l : list float32) : forall acc c,
  F32.is_nan acc = false -> In c l -> F32.is_nan c = false ->
  upto (fold_left keep l acc) c = true.
Proof.
  induction l as [|x l IH]; intros acc c Hacc Hin Hc; simpl in *.
  - contradiction.
  - destruct Hin as [->|Hin].
    + eapply upto_trans;
        [apply fold_keep_upto_acc; auto using keep_not_nan|].
      auto using keep_upto_new.
    + apply IH; auto using keep_not_nan.
Qed.

(** The extremum is one of the coordinates, unless none of them replaced
    the initial value. *)
Lemma fold_keep_attained (l : list float32) : forall acc,
  In (fold_left keep l acc) l \/
  (fold_left keep l acc = acc /\ forall c, In c l -> better c acc = false).
Proof.
  induction l as [|x l IH]; intros acc; simpl.
  - right. split; [reflexivity|contradiction].
  - destruct (IH (keep acc x)) as [H|[H1 H2]].
    + auto.
    + unfold keepBy in *. destruct (better x acc) eqn:E.
      * left. left. congruence.
      * right. split; [assumption|]. intros c [<-|Hc]; auto.
Qed.

End RunningExtremum.

(** Each axis of [getMinsMaxs] is a running minimum and a running maximum
    over the coordinates of that axis alone. *)
Lemma vertexMinsMaxs_get (st : Array3 float32 * Array3 float32)
    (v : Array3 float32) (k : Z) :
  In k range3 ->
  get3 (fst (vertexMinsMaxs st v)) k = keepMin (get3 (fst st) k) (get3 v k) /\
  get3 (snd (vertexMinsMaxs st v)) k = keepMax (get3 (snd st) k) (get3 v k).
Proof.
  destruct st as [[m0 m1 m2] [x0 x1 x2]], v as [v0 v1 v2].
  intros [<-|[<-|[<-|[]]]];
    unfold vertexMinsMaxs, updateMinsMaxs, keepMin, keepMax, keepBy;
    cbn -[F32.ltb F32.gtb];
    repeat (match goal with
            | |- context [F32.ltb ?a ?b] =>
                is_var a; is_var b; destruct (F32.ltb a b)
            | |- context [F32.gtb ?a ?b] =>
                is_var a; is_var b; destruct (F32.gtb a b)
            end; cbn -[F32.ltb F32.gtb]);
    split; reflexivity.
Qed.

Lemma triangles_fold_get (k : Z) (l : list Triangle) :
  In k range3 ->
  forall st,
    get3 (fst (fold_left triangleMinsMaxs l st)) k
    = fold_left keepMin
        (map (fun v => get3 v k) (flat_map (fun t => elems3 (Vertices t)) l))
        (get3 (fst st) k) /\
    get3 (snd (fold_left triangleMinsMaxs l st)) k
    = fold_left keepMax
        (map (fun v => get3 v k) (flat_map (fun t => elems3 (Vertices t)) l))
        (get3 (snd st) k).
Proof.
  intros Hk. induction l as [|t l IH]; intros st.
  - split; reflexivity.
  - cbn [fold_left flat_map]. rewrite map_app, !fold_left_app.
    destruct (IH (triangleMinsMaxs st t)) as [E1 E2]. rewrite E1, E2.
    unfold triangleMinsMaxs, elems3. cbn [fold_left map].
    repeat match goal with
      | |- context [vertexMinsMaxs ?s ?v] =>
          let H1 := fresh in let H2 := fresh in
          destruct (vertexMinsMaxs_get s v k Hk) as [H1 H2];
          rewrite H1, H2; clear H1 H2
      end.
    split; reflexivity.
Qed.

Lemma getMinsMaxs_get (m : Model) (k : Z) :
  In k range3 ->
  get3 (fst (getMinsMaxs m)) k
  = fold_left keepMin (coords m k) F32.MaxFloat32 /\
  get3 (snd (getMinsMaxs m)) k
  = fold_left keepMax (coords m k) (F32.opp F32.MaxFloat32).
Proof.
  intros Hk. unfold getMinsMaxs, coords, vertices.
  destruct (triangles_fold_get k (Triangles m) Hk (initMins, initMaxs))
    as [E1 E2].
  rewrite E1, E2. destruct Hk as [<-|[<-|[<-|[]]]]; split; reflexivity.
Qed.

(** Every coordinate that is a number lies between the minimum and the
    maximum of its axis. *)
Lemma getMinsMaxs_bounds (m : Model) (k : Z) (c : float32) :
  In k range3 -> In c (coords m k) -> F32.is_nan c = false ->
  F32.leb (get3 (fst (getMinsMaxs m)) k) c = true /\
  F32.leb c (get3 (snd (getMinsMaxs m)) k) = true.
Proof.
  intros Hk Hc Hn. destruct (getMinsMaxs_get m k Hk) as [-> ->]. split.
  - exact (fold_keep_bound F32.ltb F32.leb F32Facts.ltb_leb
             F32Facts.ltb_not_nan_l F32Facts.leb_refl F32Facts.leb_trans
             F32Facts.not_ltb_leb (coords m k) F32.MaxFloat32 c eq_refl Hc Hn).
  - exact (fold_keep_bound F32.gtb (fun a b => F32.leb b a)
             (fun a b => F32Facts.ltb_leb b a)
             (fun a b => F32Facts.ltb_not_nan_r b a)
             F32Facts.leb_refl
             (fun a b d H1 H2 => F32Facts.leb_trans d b a H2 H1)
             (fun a b Ha Hb => F32Facts.not_ltb_leb b a Hb Ha)
             (coords m k) (F32.opp F32.MaxFloat32) c eq_refl Hc Hn).
Qed.

Lemma allFinite_coords (m : Model) (k : Z) (c : float32) :
  allFinite m = true -> In c (coords m k) -> finite32 c = true.
Proof.
  unfold allFinite, coords. intros H Hc.
  apply in_map_iff in Hc as (v & <- & Hv).
  rewrite forallb_forall in H. specialize (H v Hv).
  rewrite forallb_forall in H. apply H.
  destruct v as [v0 v1 v2]. unfold get3, elems3. simpl.
  destruct (k =? 0); [auto|]. destruct (k =? 1); auto.
Qed.

Lemma coords_nonempty (m : Model) (k : Z) :
  Triangles m <> [] -> exists c, In c (coords m k).
Proof.
  unfold coords, vertices. destruct (Triangles m) as [|t l]; [congruence|].
  intros _. eexists. simpl. left. reflexivity.
Qed.

(** With finite coordinates on an axis, its minimum and its maximum are
    coordinates of some vertex. *)
Lemma getMinsMaxs_attained_axis (m : Model) (k : Z) :
  In k range3 -> Triangles m <> [] ->
  (forall c, In c (coords m k) -> finite32 c = true) ->
  In (get3 (fst (getMinsMaxs m)) k) (coords m k) /\
  In (get3 (snd (getMinsMaxs m)) k) (coords m k).
Proof.
  intros Hk Hne Hfin. destruct (getMinsMaxs_get m k Hk) as [-> ->].
  destruct (coords_nonempty m k Hne) as [c Hc].
  pose proof (Hfin c Hc) as Fc.
  apply andb_prop in Fc as [Vc Fc]. split.
  - destruct (fold_keep_attained F32.ltb (coords m k) F32.MaxFloat32)
      as [H|[H1 H2]]; [exact H|].
    change (fold_left keepMin (coords m k) F32.MaxFloat32 = F32.MaxFloat32)
      in H1. rewrite H1.
    destruct (F32Facts.valid_finite_below_max c Vc Fc) as [L|<-];
      [|exact Hc].
    rewrite (H2 c Hc) in L. discriminate.
  - destruct (fold_keep_attained F32.gtb (coords m k)
                (F32.opp F32.MaxFloat32)) as [H|[H1 H2]]; [exact H|].
    change (fold_left keepMax (coords m k) (F32.opp F32.MaxFloat32)
            = F32.opp F32.MaxFloat32) in H1. rewrite H1.
    destruct (F32Facts.valid_finite_above_min c Vc Fc) as [L|<-];
      [|exact Hc].
    rewrite (H2 c Hc) in L. discriminate.
Qed.

Lemma getMinsMaxs_attained (m : Model) (k : Z) :
  In k range3 -> Triangles m <> [] -> allFinite m = true ->
  In (get3 (fst (getMinsMaxs m)) k) (coords m k) /\
  In (get3 (snd (getMinsMaxs m)) k) (coords m k).
Proof.
  intros Hk Hne Hfin. apply getMinsMaxs_attained_axis; auto.
  intros c Hc. eapply allFinite_coords; eassumption.
Qed.

(** The minimum of an axis is the coordinate of some vertex exactly when
    some coordinate of the axis is at most [MaxFloat32], that is, is
    neither NaN nor plus infinity; it is [MaxFloat32] otherwise. *)
Lemma getMinsMaxs_min_attained (m : Model) (k : Z) :
  In k range3 ->
  ((exists c, In c (coords m k) /\ F32.leb c F32.MaxFloat32 = true) <->
   In (get3 (fst (getMinsMaxs m)) k) (coords m k)) /\
  (In (get3 (fst (getMinsMaxs m)) k) (coords m k) \/
   get3 (fst (getMinsMaxs m)) k = F32.MaxFloat32).
Proof.
  intros Hk. destruct (getMinsMaxs_get m k Hk) as [-> _].
  pose proof (fold_keep_attained F32.ltb (coords m k) F32.MaxFloat32) as A.
  change (keepBy F32.ltb) with keepMin in A.
  split; [split|].
  - intros (c & Hc & L). destruct A as [H|[H1 H2]]; [exact H|].
    rewrite H1. destruct (F32Facts.leb_max_cases c L) as [L'|<-];
      [|exact Hc].
    rewrite (H2 c Hc) in L'. discriminate.
  - intros H. eexists. split; [exact H|].
    exact (fold_keep_upto_acc F32.ltb F32.leb F32Facts.ltb_leb
             F32Facts.ltb_not_nan_l F32Facts.leb_refl F32Facts.leb_trans
             (coords m k) F32.MaxFloat32 eq_refl).
  - destruct A as [H|[H _]]; auto.
Qed.

(** The maximum of an axis is the coordinate of some vertex exactly when
    some coordinate of the axis is at least [-MaxFloat32], that is, is
    neither NaN nor minus infinity; it is [-MaxFloat32] otherwise. *)
Lemma getMinsMaxs_max_attained (m : Model) (k : Z) :
  In k range3 ->
  ((exists c, In c (coords m k) /\
              F32.leb (F32.opp F32.MaxFloat32) c = true) <->
   In (get3 (snd (getMinsMaxs m)) k) (coords m k)) /\
  (In (get3 (snd (getMinsMaxs m)) k) (coords m k) \/
   get3 (snd (getMinsMaxs m)) k = F32.opp F32.MaxFloat32).
Proof.
  intros Hk. destruct (getMinsMaxs_get m k Hk) as [_ ->].
  pose proof (fold_keep_attained F32.gtb (coords m k)
                (F32.opp F32.MaxFloat32)) as A.
  change (keepBy F32.gtb) with keepMax in A.
  split; [split|].
  - intros (c & Hc & L). destruct A as [H|[H1 H2]]; [exact H|].
    rewrite H1. destruct (F32Facts.leb_min_cases c L) as [L'|<-];
      [|exact Hc].
    rewrite (H2 c Hc) in L'. discriminate.
  - intros H. eexists. split; [exact H|].
    exact (fold_keep_upto_acc F32.gtb (fun a b => F32.leb b a)
             (fun a b => F32Facts.ltb_leb b a)
             (fun a b => F32Facts.ltb_not_nan_r b a)
             F32Facts.leb_refl
             (fun a b d H1 H2 => F32Facts.leb_trans d b a H2 H1)
             (coords m k) (F32.opp F32.MaxFloat32) eq_refl).
  - destruct A as [H|[H _]]; auto.
Qed.

(** C9, as the code has it: on every axis the minimum and the maximum bound
    every coordinate that is not NaN. The minimum is the coordinate of some
    vertex exactly when some coordinate of the axis is at most [MaxFloat32]
    (is neither NaN nor plus infinity) and is [MaxFloat32] otherwise; the
    maximum is the coordinate of some vertex exactly when some coordinate
    of the axis is at least [-MaxFloat32] (is neither NaN nor minus
    infinity) and is [-MaxFloat32] otherwise. So both are attained when the
    mesh has a triangle and all its coordinates are finite. For a mesh
    without triangles they are [MaxFloat32] and [-MaxFloat32], the minimum
    above the maximum. *)
Theorem getMinsMaxs_bounding_box (m : Model) (k : Z) :
  In k range3 ->
  (forall c, In c (coords m k) -> F32.is_nan c = false ->
     F32.leb (get3 (fst (getMinsMaxs m)) k) c = true /\
     F32.leb c (get3 (snd (getMinsMaxs m)) k) = true) /\
  ((exists c, In c (coords m k) /\ F32.leb c F32.MaxFloat32 = true) <->
   In (get3 (fst (getMinsMaxs m)) k) (coords m k)) /\
  ((exists c, In c (coords m k) /\
              F32.leb (F32.opp F32.MaxFloat32) c = true) <->
   In (get3 (snd (getMinsMaxs m)) k) (coords m k)) /\
  (In (get3 (fst (getMinsMaxs m)) k) (coords m k) \/
   get3 (fst (getMinsMaxs m)) k = F32.MaxFloat32) /\
  (In (get3 (snd (getMinsMaxs m)) k) (coords m k) \/
   get3 (snd (getMinsMaxs m)) k = F32.opp F32.MaxFloat32) /\
  (Triangles m <> [] -> allFinite m = true ->
     In (get3 (fst (getMinsMaxs m)) k) (coords m k) /\
     In (get3 (snd (getMinsMaxs m)) k) (coords m k)) /\
  (Triangles m = [] ->
     getMinsMaxs m = (initMins, initMaxs) /\
     get3 initMins k = F32.MaxFloat32 /\
     get3 initMaxs k = F32.opp F32.MaxFloat32 /\
     F32.gtb (get3 (fst (getMinsMaxs m)) k) (get3 (snd (getMinsMaxs m)) k)
     = true).
Proof.
  intros Hk.
  destruct (getMinsMaxs_min_attained m k Hk) as [Imin Dmin].
  destruct (getMinsMaxs_max_attained m k Hk) as [Imax Dmax].
  split; [|split; [exact Imin|split; [exact Imax|split; [exact Dmin|
    split; [exact Dmax|split]]]]].
  - intros c Hc Hn. apply getMinsMaxs_bounds; assumption.
  - intros Hne Hfin. apply getMinsMaxs_attained; assumption.
  - intros He. unfold getMinsMaxs. rewrite He. simpl fold_left.
    destruct Hk as [<-|[<-|[<-|[]]]]; repeat split.
Qed.

Lemma getMinsMaxs_bounding_box_witness :
  (F32.leb (get3 (fst (getMinsMaxs sampleMesh)) 0) (F32.of_int 1) = true /\
   F32.leb (F32.of_int 1) (get3 (snd (getMinsMaxs sampleMesh)) 0) = true) /\
  (In (get3 (fst (getMinsMaxs sampleMesh)) 0) (coords sampleMesh 0) /\
   In (get3 (snd (getMinsMaxs sampleMesh)) 0) (coords sampleMesh 0)) /\
  (In S754_nan (coords holedMesh 0) /\
   In (get3 (fst (getMinsMaxs holedMesh)) 0) (coords holedMesh 0) /\
   In (get3 (snd (getMinsMaxs holedMesh)) 0) (coords holedMesh 0)) /\
  F32.gtb (get3 (fst (getMinsMaxs zeroModel)) 0)
          (get3 (snd (getMinsMaxs zeroModel)) 0) = true.
Proof.
  assert (H0 : In 0 range3) by (simpl; auto).
  destruct (getMinsMaxs_bounding_box sampleMesh 0 H0)
    as (B & _ & _ & _ & _ & A & _).
  destruct (getMinsMaxs_bounding_box holedMesh 0 H0)
    as (_ & Imin & Imax & _).
  destruct (getMinsMaxs_bounding_box zeroModel 0 H0)
    as (_ & _ & _ & _ & _ & _ & E).
  split; [|split; [|split]].
  - apply B; [vm_compute; auto|reflexivity].
  - apply A; [discriminate|reflexivity].
  - split; [simpl; auto|]. split.
    + apply Imin. exists (F32.of_int 1). split; [vm_compute; auto|reflexivity].
    + apply Imax. exists (F32.of_int 1). split; [vm_compute; auto|reflexivity].
  - apply E. reflexivity.
Defined.

(** C9 as stated fails on a mesh with a NaN coordinate: the minimum of the
    axis is not below it and the maximum is not above it, and neither is a
    coordinate of a vertex. *)
Lemma getMinsMaxs_nan_counterexample :
  Triangles nanMesh <> [] /\
  In S754_nan (coords nanMesh 0) /\
  F32.leb (get3 (fst (getMinsMaxs nanMesh)) 0) S754_nan = false /\
  F32.leb S754_nan (get3 (snd (getMinsMaxs nanMesh)) 0) = false /\
  ~ In (get3 (fst (getMinsMaxs nanMesh)) 0) (coords nanMesh 0) /\
  ~ In (get3 (snd (getMinsMaxs nanMesh)) 0) (coords nanMesh 0).
Proof.
  split; [discriminate|]. split; [simpl; auto|].
  split; [reflexivity|]. split; [reflexivity|].
  split; vm_compute; intros [H|[H|[H|[]]]]; discriminate H.
Qed.

(** ** Rendering *)

Lemma append_empty_r (s : string) : String.append s EmptyString = s.
Proof. induction s as [|c s IH]; simpl; congruence. Qed.

Lemma append_assoc (s t u : string) :
  String.append (String.append s t) u = String.append s (String.append t u).
Proof. induction s as [|c s IH]; simpl; congruence. Qed.

Lemma drawCell_glyph (v : float32) :
  drawCell v = glyph (shadeOf (F32.mul v F32.four)).
Proof.
  unfold drawCell, shadeOf.
  destruct (F32.gtb _ F32.three); [reflexivity|].
  destruct (F32.gtb _ F32.one_and_half); [reflexivity|].
  destruct (F32.gtb _ F32.zero); reflexivity.
Qed.

(** The inner loop appends the glyphs of the row to the buffer. *)
Lemma drawCells_buffer (row : list float32) : forall buffer,
  fold_left (fun buf v => String.append buf (drawCell v)) row buffer
  = String.append buffer
      (joinAll (map (fun v => glyph (shadeOf (F32.mul v F32.four))) row)).
Proof.
  induction row as [|v row IH]; intros buffer; simpl.
  - symmetry. apply append_empty_r.
  - rewrite IH, append_assoc, drawCell_glyph. reflexivity.
Qed.

Lemma drawRow_buffer (buffer : string) (row : list float32) :
  drawRow buffer row = String.append buffer (renderLine row).
Proof.
  unfold drawRow, renderLine. rewrite drawCells_buffer, append_assoc.
  reflexivity.
Qed.

Lemma drawRows_buffer (matrix : list (list float32)) : forall buffer,
  fold_left drawRow matrix buffer = String.append buffer (render matrix).
Proof.
  induction matrix as [|row matrix IH]; intros buffer; simpl.
  - symmetry. apply append_empty_r.
  - rewrite IH, drawRow_buffer, append_assoc. reflexivity.
Qed.

Lemma zero_cell_blank (v : float32) :
  isZero v = true -> glyph (shadeOf (F32.mul v F32.four)) = blank.
Proof. destruct v as [[]| | |]; try discriminate; reflexivity. Qed.

Lemma zero_row_blank (row : list float32) :
  forallb isZero row = true -> renderLine row = blankLine row.
Proof.
  unfold renderLine, blankLine. intros H. f_equal.
  induction row as [|v row IH]; simpl in *; [reflexivity|].
  apply andb_prop in H as [Hv Hrow].
  rewrite zero_cell_blank, IH by assumption. reflexivity.
Qed.

(** C7: [DrawMatrix] returns one line per row, each ended by a line feed,
    with one glyph per column chosen by the threshold table on the value
    times 4; a grid of zeros is rendered as spaces only. *)
Theorem DrawMatrix_render (matrix : list (list float32)) :
  DrawMatrix matrix = render matrix /\
  (forallb (forallb isZero) matrix = true ->
   DrawMatrix matrix = joinAll (map blankLine matrix)).
Proof.
  assert (E : DrawMatrix matrix = render matrix).
  { unfold DrawMatrix. rewrite drawRows_buffer. reflexivity. }
  split; [exact E|]. rewrite E. clear E. unfold render.
  induction matrix as [|row matrix IH]; simpl; [reflexivity|].
  intros H. apply andb_prop in H as [Hrow Hm].
  rewrite zero_row_blank, IH by assumption. reflexivity.
Qed.

Lemma DrawMatrix_render_witness :
  DrawMatrix [[F32.zero; S754_zero true]; [F32.zero; F32.zero]]
  = joinAll (map blankLine [[F32.zero; S754_zero true]; [F32.zero; F32.zero]]).
Proof.
  apply (DrawMatrix_render [[F32.zero; S754_zero true]; [F32.zero; F32.zero]]).
  reflexivity.
Defined.

(** ** Projection *)

Lemma wrap_in_int (z : Z) : in_int z = true -> wrap z = z.
Proof.
  unfold in_int, intMin, intMax, wrap. intros H.
  apply andb_prop in H as [H1 H2]. apply Z.leb_le in H1, H2.
  rewrite Z.mod_small; lia.
Qed.

Lemma ofold_app {A B} (f : B -> A -> outcome B) (l1 l2 : list A) (b : B) :
  ofold f (l1 ++ l2) b = (b' <- ofold f l1 b ;; ofold f l2 b').
Proof.
  revert b. induction l1 as [|a l1 IH]; intros b; simpl; [reflexivity|].
  destruct (f b a); simpl; auto.
Qed.

(** The two nested loops visit the vertices of the mesh in file order. *)
Lemma ofold_vertices {B} (f : B -> Array3 float32 -> outcome B)
    (ts : list Triangle) (b : B) :
  ofold (fun b t => ofold f (elems3 (Vertices t)) b) ts b
  = ofold f (flat_map (fun t => elems3 (Vertices t)) ts) b.
Proof.
  revert b. induction ts as [|t ts IH]; intros b; [reflexivity|].
  cbn [ofold flat_map]. rewrite ofold_app.
  destruct (ofold f (elems3 (Vertices t)) b); simpl; auto.
Qed.

(** The allocation loop fills the outer slice with rows of zeros. *)
Lemma initRows_fill (row : list float32) (n : nat) :
  forall (done : list (list float32)),
    ofold (fun (mat : list (list float32)) (i : nat) =>
             Returns (<[i := row]> mat))
          (seq (length done) n) (done ++ replicate n [])
    = Returns (done ++ replicate n row).
Proof.
  induction n as [|n IH]; intros done; [reflexivity|].
  cbn [seq ofold replicate obind].
  replace (<[length done := row]> (done ++ [] :: replicate n []))
    with ((done ++ [row]) ++ replicate n []).
  - replace (S (length done)) with (length (done ++ [row]))
      by (rewrite length_app; simpl; lia).
    rewrite IH, <- app_assoc. reflexivity.
  - rewrite <- app_assoc, insert_app_r_alt, Nat.sub_diag by lia.
    reflexivity.
Qed.

(** [make] returns exactly for the lengths from 0 to the allocator's
    limit. *)
Lemma make_Returns {A} (elemSize : Z) (z : A) (n : Z) :
  0 <= n -> elemSize * n <= maxAlloc ->
  make elemSize z n = Returns (replicate (Z.to_nat n) z).
Proof.
  intros H0 H1. unfold make.
  destruct (Z.ltb_spec n 0); [lia|].
  destruct (Z.ltb_spec maxAlloc (elemSize * n)); [lia|]. reflexivity.
Qed.

Lemma make_Panics {A} (elemSize : Z) (z : A) (n : Z) :
  n < 0 \/ maxAlloc < elemSize * n ->
  make elemSize z n = Panics MakeSliceLenOutOfRange.
Proof.
  intros H. unfold make.
  destruct (Z.ltb_spec n 0); [reflexivity|].
  destruct (Z.ltb_spec maxAlloc (elemSize * n)); [reflexivity|lia].
Qed.

Lemma make_cases {A} (elemSize : Z) (z : A) (n : Z) :
  (make elemSize z n = Panics MakeSliceLenOutOfRange /\
   (n < 0 \/ maxAlloc < elemSize * n)) \/
  (make elemSize z n = Returns (replicate (Z.to_nat n) z) /\
   0 <= n /\ elemSize * n <= maxAlloc).
Proof.
  destruct (Z.lt_ge_cases n 0) as [H|H].
  - left. split; [apply make_Panics|]; auto.
  - destruct (Z.lt_ge_cases maxAlloc (elemSize * n)) as [H'|H'].
    + left. split; [apply make_Panics|]; auto.
    + right. split; [apply make_Returns|]; auto.
Qed.

Lemma initMatrix_eq (size : Z) :
  initMatrix size =
  let rows := wrap (Z.quot size 2 + 1) in
  let cols := wrap (size + 1) in
  if (rows <? 0) || (maxAlloc <? sizeofSlice * rows)
  then Panics MakeSliceLenOutOfRange
  else if rows =? 0 then Returns []
  else if (cols <? 0) || (maxAlloc <? sizeofFloat32 * cols)
  then Panics MakeSliceLenOutOfRange
  else Returns (replicate (Z.to_nat rows) (replicate (Z.to_nat cols) F32.zero)).
Proof.
  unfold initMatrix, make. cbv zeta.
  destruct ((wrap (Z.quot size 2 + 1) <? 0)
            || (maxAlloc <? sizeofSlice * wrap (Z.quot size 2 + 1))) eqn:Hr;
    [reflexivity|].
  apply orb_false_elim in Hr as [Hr _].
  apply Z.ltb_ge in Hr. cbn [obind]. rewrite length_replicate.
  destruct (wrap (Z.quot size 2 + 1) =? 0) eqn:Hz.
  - apply Z.eqb_eq in Hz. rewrite Hz. reflexivity.
  - apply Z.eqb_neq in Hz.
    destruct (Z.to_nat (wrap (Z.quot size 2 + 1))) as [|n] eqn:Hn; [lia|].
    destruct ((wrap (size + 1) <? 0)
              || (maxAlloc <? sizeofFloat32 * wrap (size + 1))) eqn:Hc;
      [reflexivity|].
    cbn [obind]. exact (initRows_fill _ (S n) []).
Qed.

Lemma index_Returns {A} (l : list A) (i : Z) (a : A) :
  index l i = Returns a <-> 0 <= i /\ l !! Z.to_nat i = Some a.
Proof.
  unfold index. destruct (i <? 0) eqn:Hi.
  - apply Z.ltb_lt in Hi. split; [discriminate|lia].
  - apply Z.ltb_ge in Hi. destruct (l !! Z.to_nat i) as [b|]; split.
    + intros [= ->]. auto.
    + intros [_ [= ->]]. reflexivity.
    + discriminate.
    + intros [_ [=]].
Qed.


Lemma index_in_range {A} (l : list A) (i : Z) :
  0 <= i < Z.of_nat (length l) -> exists a, index l i = Returns a.
Proof.
  intros H. destruct (lookup_lt_is_Some_2 l (Z.to_nat i)) as [a Ha]; [lia|].
  exists a. apply index_Returns. split; [lia|assumption].
Qed.

Lemma shaped_replicate (rows cols : nat) :
  shaped rows cols (replicate rows (replicate cols F32.zero)).
Proof.
  split; [apply length_replicate|].
  intros row H. apply list_elem_of_In, elem_of_replicate in H as [-> _].
  apply length_replicate.
Qed.

Lemma shaped_lookup (rows cols : nat) (g : list (list float32)) (i : nat)
    (row : list float32) :
  shaped rows cols g -> g !! i = Some row -> length row = cols.
Proof.
  intros [_ H] Hi. apply H, list_elem_of_In.
  eapply list_elem_of_lookup_2; eassumption.
Qed.

Lemma shaped_insert (rows cols : nat) (g : list (list float32)) (i : nat)
    (row : list float32) :
  shaped rows cols g -> length row = cols -> shaped rows cols (<[i := row]> g).
Proof.
  intros [H1 H2] Hrow. split; [rewrite length_insert; assumption|].
  intros r Hr. apply list_elem_of_In, list_elem_of_lookup in Hr as [k Hk].
  destruct (decide (i = k)) as [->|Hne].
  - destruct (decide (k < length g)%nat) as [Hlt|Hge].
    + rewrite list_lookup_insert_eq in Hk by assumption. congruence.
    + rewrite list_insert_ge in Hk by lia. apply H2, list_elem_of_In.
      eapply list_elem_of_lookup_2; eassumption.
  - rewrite list_lookup_insert_ne in Hk by assumption.
    apply H2, list_elem_of_In. eapply list_elem_of_lookup_2; eassumption.
Qed.

Section ProjectionLoop.

Variable intOfUnrepresentable : float32 -> Z.
Variable m : Model.
Variable size : Z.
Variable p : ProjectFrom.

Local Abbreviation row_of := (cellRow intOfUnrepresentable m size p).
Local Abbreviation col_of := (cellCol intOfUnrepresentable m size p).
Local Abbreviation depth_of := (depthOf m p).
Local Abbreviation hits := (hitsCell intOfUnrepresentable m size p).
Local Abbreviation in_grid := (inGrid intOfUnrepresentable m size p).

(** The body of the loop, in the vocabulary of the statements. *)
Local Abbreviation step :=
  (projectVertex intOfUnrepresentable size (axisX p) (axisY p) (axisDepth p)
     (fst (getMinsMaxs m)) (getDimensions m) (scaleOf m size p)).

Lemma ProjectModelVertices_loop :
  ProjectModelVertices intOfUnrepresentable m size p
  = (matrix <- initMatrix size ;; ofold step (vertices m) matrix).
Proof.
  unfold ProjectModelVertices, scaleOf, getDimensions, axisX, axisY,
    axisDepth, vertices.
  destruct (GetAxisForProjection p) as [[x y] v].
  destruct (getMinsMaxs m) as [mins maxs]. cbn [fst snd].
  destruct (initMatrix size); cbn [obind]; [|reflexivity].
  apply ofold_vertices.
Qed.

Lemma step_eq (mat : list (list float32)) (v : Array3 float32) :
  step mat v =
  (row <- index mat (row_of v) ;;
   cur <- index row (col_of v) ;;
   if F32.gtb (depth_of v) cur
   then Returns (<[Z.to_nat (row_of v) :=
                   <[Z.to_nat (col_of v) := depth_of v]> row]> mat)
   else Returns mat).
Proof. reflexivity. Qed.

(** What one vertex does to a cell: the cell it maps to keeps the greater
    of its value and the depth of the vertex, the others are untouched. *)
Lemma step_cellAt (mat mat' : list (list float32)) (v : Array3 float32)
    (i j : Z) (a : float32) :
  step mat v = Returns mat' -> 0 <= i -> 0 <= j ->
  cellAt mat i j = Some a ->
  cellAt mat' i j
  = Some (if hits i j v then keepMax a (depth_of v) else a).
Proof.
  rewrite step_eq. intros Hstep Hi Hj Ha.
  destruct (index mat (row_of v)) as [row|] eqn:Hrow; [|discriminate].
  cbn [obind] in Hstep. apply index_Returns in Hrow as [Hr0 Hrow].
  destruct (index row (col_of v)) as [cur|] eqn:Hcur; [|discriminate].
  cbn [obind] in Hstep. apply index_Returns in Hcur as [Hc0 Hcur].
  unfold hitsCell, keepMax, keepBy.
  unfold cellAt in *.
  destruct (Z.eqb_spec (row_of v) i) as [Ei|Ei];
    [destruct (Z.eqb_spec (col_of v) j) as [Ej|Ej]|]; cbn [andb].
  - subst i j. rewrite Hrow in Ha. rewrite Hcur in Ha.
    injection Ha as ->.
    destruct (F32.gtb (depth_of v) a); injection Hstep as <-.
    + rewrite list_lookup_insert_eq by (eapply lookup_lt_Some; eassumption).
      rewrite list_lookup_insert_eq by (eapply lookup_lt_Some; eassumption).
      reflexivity.
    + rewrite Hrow. assumption.
  - subst i. rewrite Hrow in Ha.
    destruct (F32.gtb (depth_of v) cur); injection Hstep as <-.
    + rewrite list_lookup_insert_eq by (eapply lookup_lt_Some; eassumption).
      rewrite list_lookup_insert_ne by lia. assumption.
    + rewrite Hrow. assumption.
  - destruct (F32.gtb (depth_of v) cur); injection Hstep as <-.
    + rewrite list_lookup_insert_ne by lia. assumption.
    + assumption.
Qed.

Lemma loop_cellAt (vs : list (Array3 float32)) :
  forall mat mat' i j a,
    ofold step vs mat = Returns mat' -> 0 <= i -> 0 <= j ->
    cellAt mat i j = Some a ->
    cellAt mat' i j
    = Some (fold_left keepMax
              (map depth_of (List.filter (hits i j) vs)) a).
Proof.
  induction vs as [|v vs IH]; intros mat mat' i j a H Hi Hj Ha;
    cbn [ofold] in H.
  - injection H as <-. assumption.
  - destruct (step mat v) as [mat1|] eqn:H1; [|discriminate].
    cbn [obind] in H.
    pose proof (step_cellAt _ _ _ i j a H1 Hi Hj Ha) as H2.
    rewrite (IH _ _ _ _ _ H Hi Hj H2). cbn [List.filter].
    destruct (hits i j v); reflexivity.
Qed.

Variable rows cols : nat.
Hypothesis rows_size : Z.of_nat rows = Z.max 0 (Z.quot size 2 + 1).
Hypothesis cols_size : Z.of_nat cols = Z.max 0 (size + 1).


Lemma step_in_grid (mat : list (list float32)) (v : Array3 float32) :
  shaped rows cols mat -> in_grid v = true ->
  exists mat', step mat v = Returns mat'.
Proof.
  intros Hs Hv. rewrite step_eq.
  unfold inGrid in Hv.
  rewrite !andb_true_iff in Hv.
  rewrite !Z.leb_le, !Z.ltb_lt in Hv.
  destruct (index_in_range mat (row_of v)) as [row Hrow];
    [destruct Hs; lia|].
  rewrite Hrow. cbn [obind].
  apply index_Returns in Hrow as [_ Hrow].
  pose proof (shaped_lookup _ _ _ _ _ Hs Hrow) as Hlen.
  destruct (index_in_range row (col_of v)) as [cur Hcur]; [lia|].
  rewrite Hcur. cbn [obind].
  destruct (F32.gtb (depth_of v) cur); eauto.
Qed.

Lemma step_shaped (mat mat' : list (list float32)) (v : Array3 float32) :
  shaped rows cols mat -> step mat v = Returns mat' -> shaped rows cols mat'.
Proof.
  intros Hs. rewrite step_eq.
  destruct (index mat (row_of v)) as [row|] eqn:Hrow; [|discriminate].
  cbn [obind]. apply index_Returns in Hrow as [_ Hrow].
  destruct (index row (col_of v)) as [cur|]; [|discriminate].
  cbn [obind]. destruct (F32.gtb (depth_of v) cur); intros [= <-].
  - apply shaped_insert; [assumption|]. rewrite length_insert.
    eapply shaped_lookup; eassumption.
  - assumption.
Qed.

(** The loop over the vertices [vs], from a grid [mat]. *)
Lemma loop_returns (vs : list (Array3 float32)) :
  forall mat, shaped rows cols mat -> forallb in_grid vs = true ->
    exists mat', ofold step vs mat = Returns mat' /\ shaped rows cols mat'.
Proof.
  induction vs as [|v vs IH]; intros mat Hs Hvs; cbn [ofold forallb] in *.
  - eauto.
  - apply andb_prop in Hvs as [Hv Hvs].
    destruct (step_in_grid mat v Hs Hv) as [mat1 H1]. rewrite H1.
    cbn [obind]. apply IH; [|assumption].
    eapply step_shaped; eassumption.
Qed.


Lemma loop_shaped (vs : list (Array3 float32)) :
  forall mat mat', shaped rows cols mat -> ofold step vs mat = Returns mat' ->
    shaped rows cols mat'.
Proof.
  induction vs as [|v vs IH]; intros mat mat' Hs H; cbn [ofold] in H.
  - congruence.
  - destruct (step mat v) as [mat1|] eqn:H1; [|discriminate].
    cbn [obind] in H. eapply IH; [|eassumption].
    eapply step_shaped; eassumption.
Qed.

End ProjectionLoop.

(** *** The grid that is returned *)

Lemma cellAt_replicate (rows cols : nat) (i j : Z) :
  0 <= i < Z.of_nat rows -> 0 <= j < Z.of_nat cols ->
  cellAt (replicate rows (replicate cols F32.zero)) i j = Some F32.zero.
Proof.
  intros Hi Hj. unfold cellAt.
  rewrite lookup_replicate_2 by lia. apply lookup_replicate_2. lia.
Qed.

(** A grid is returned only after the allocation went through, and it has
    the shape of the grid that was allocated; its cells then are those of
    the loop over the vertices, started from zeros. *)
Lemma ProjectModelVertices_Returns (conv : float32 -> Z) (m : Model)
    (size : Z) (p : ProjectFrom) (g : list (list float32)) :
  ProjectModelVertices conv m size p = Returns g ->
  exists rows cols : nat,
    initMatrix size = Returns (replicate rows (replicate cols F32.zero)) /\
    Z.of_nat rows = wrap (Z.quot size 2 + 1) /\
    (rows <> 0%nat -> Z.of_nat cols = wrap (size + 1)) /\
    shaped rows cols g /\
    forall i j, 0 <= i -> 0 <= j ->
      cellAt g i j <> None ->
      cellAt g i j
      = Some (fold_left keepMax (depthsAt conv m size p i j) F32.zero).
Proof.
  rewrite ProjectModelVertices_loop, initMatrix_eq. cbv zeta.
  destruct ((wrap (Z.quot size 2 + 1) <? 0)
            || (maxAlloc <? sizeofSlice * wrap (Z.quot size 2 + 1))) eqn:Hr;
    [discriminate|].
  apply orb_false_elim in Hr as [Hr _].
  apply Z.ltb_ge in Hr.
  destruct (wrap (Z.quot size 2 + 1) =? 0) eqn:Hz.
  - apply Z.eqb_eq in Hz. cbn [obind]. intros H.
    exists 0%nat, 0%nat. split; [reflexivity|]. split; [lia|].
    split; [congruence|].
    assert (Hs : shaped 0 0 g).
    { eapply loop_shaped; [|exact H]. split; [reflexivity|contradiction]. }
    split; [exact Hs|]. intros i j _ _ Hc. exfalso. apply Hc.
    destruct Hs as [Hlen _]. destruct g; [|discriminate].
    unfold cellAt. rewrite lookup_nil. reflexivity.
  - apply Z.eqb_neq in Hz.
    destruct ((wrap (size + 1) <? 0)
              || (maxAlloc <? sizeofFloat32 * wrap (size + 1))) eqn:Hc;
      [discriminate|].
    apply orb_false_elim in Hc as [Hc _].
    apply Z.ltb_ge in Hc. cbn [obind]. intros H.
    exists (Z.to_nat (wrap (Z.quot size 2 + 1))), (Z.to_nat (wrap (size + 1))).
    split; [reflexivity|]. split; [lia|]. split; [lia|].
    assert (Hs : shaped (Z.to_nat (wrap (Z.quot size 2 + 1)))
                   (Z.to_nat (wrap (size + 1))) g).
    { eapply loop_shaped; [|exact H]. apply shaped_replicate. }
    split; [exact Hs|]. intros i j Hi Hj Hne.
    unfold depthsAt. eapply loop_cellAt; [exact H|assumption..|].
    apply cellAt_replicate.
    + unfold cellAt in Hne.
      destruct (g !! Z.to_nat i) as [row|] eqn:Hrow; [|congruence].
      apply lookup_lt_Some in Hrow. destruct Hs as [Hlen _]. lia.
    + unfold cellAt in Hne.
      destruct (g !! Z.to_nat i) as [row|] eqn:Hrow; [|congruence].
      pose proof (shaped_lookup _ _ _ _ _ Hs Hrow) as Hlen.
      destruct (row !! Z.to_nat j) as [x|] eqn:Hx; [|congruence].
      apply lookup_lt_Some in Hx. lia.
Qed.

Lemma quot2_in_int (size : Z) :
  in_int size = true -> wrap (Z.quot size 2 + 1) = Z.quot size 2 + 1.
Proof.
  intros H. apply wrap_in_int. unfold in_int, intMin, intMax in *.
  apply andb_prop in H as [H1 H2]. apply Z.leb_le in H1, H2.
  assert (Q : -2 ^ 62 <= Z.quot size 2 <= 2 ^ 62).
  { split.
    - apply Z.quot_le_lower_bound; lia.
    - apply Z.quot_le_upper_bound; lia. }
  apply andb_true_intro. split; apply Z.leb_le; lia.
Qed.

Lemma wrap_succ_in_int (size : Z) :
  in_int size = true -> 0 <= wrap (size + 1) -> wrap (size + 1) = size + 1.
Proof.
  intros H Hw. unfold in_int, intMin, intMax in H.
  apply andb_prop in H as [H1 H2]. apply Z.leb_le in H1, H2.
  destruct (Z.eq_dec size (2 ^ 63 - 1)) as [->|Hne].
  - exfalso. revert Hw. vm_compute. intros Hw. apply Hw. reflexivity.
  - apply wrap_in_int. unfold in_int, intMin, intMax.
    apply andb_true_intro. split; apply Z.leb_le; lia.
Qed.

Lemma quot2_nonneg (size : Z) : -1 <= size -> 0 <= Z.quot size 2.
Proof.
  intros H. destruct (Z.eq_dec size (-1)) as [->|Hne];
    [vm_compute; discriminate|].
  apply Z.quot_pos; lia.
Qed.

Lemma quot2_neg (size : Z) : size < -1 -> Z.quot size 2 <= -1.
Proof.
  intros H. replace size with (- (- size)) by lia.
  rewrite Z.quot_opp_l by lia.
  assert (1 <= Z.quot (- size) 2); [apply Z.quot_le_lower_bound; lia|lia].
Qed.

(** The truncating division by 2, from -1 on. *)
Lemma quot2_bounds (size : Z) :
  -1 <= size -> 2 * Z.quot size 2 <= size + 1 /\ size <= 2 * Z.quot size 2 + 1.
Proof.
  intros H. destruct (Z.eq_dec size (-1)) as [->|Hne];
    [vm_compute; split; discriminate|].
  pose proof (Z.quot_rem' size 2) as E.
  pose proof (Z.rem_bound_pos size 2 ltac:(lia) ltac:(lia)) as B. lia.
Qed.

(** The outer slice of [size / 2 + 1] slice headers is the larger of the
    two kinds of allocation: when it is within the allocator's limit, so is
    a row of [size + 1] floats, and [size + 1] does not overflow. *)
Lemma alloc_rows_cols (size : Z) :
  -1 <= size -> sizeofSlice * (Z.quot size 2 + 1) <= maxAlloc ->
  0 <= size + 1 <= 2 ^ 48 /\ sizeofFloat32 * (size + 1) <= maxAlloc.
Proof.
  intros H HA. pose proof (quot2_bounds size H) as [_ B].
  unfold sizeofSlice, sizeofFloat32, maxAlloc in *. lia.
Qed.

(** When the row count is not negative and the outer slice is within the
    allocator's limit, the allocation returns a grid of zeros of the shape
    asked for. *)
Lemma initMatrix_Returns (size : Z) :
  in_int size = true -> 0 <= Z.quot size 2 + 1 ->
  sizeofSlice * (Z.quot size 2 + 1) <= maxAlloc ->
  exists (rows cols : nat) (mat : list (list float32)),
    initMatrix size = Returns mat /\ shaped rows cols mat /\
    Z.of_nat rows = Z.max 0 (Z.quot size 2 + 1) /\
    Z.of_nat cols = Z.max 0 (size + 1).
Proof.
  intros Hsize HR HA. rewrite initMatrix_eq. cbv zeta.
  rewrite quot2_in_int by assumption.
  destruct (Z.ltb_spec (Z.quot size 2 + 1) 0); [lia|].
  destruct (Z.ltb_spec maxAlloc (sizeofSlice * (Z.quot size 2 + 1))); [lia|].
  cbn [orb].
  destruct (Z.lt_ge_cases size (-1)) as [Hlt|Hge].
  - pose proof (quot2_neg size Hlt).
    destruct (Z.eqb_spec (Z.quot size 2 + 1) 0); [|lia].
    exists 0%nat, 0%nat, []. split; [reflexivity|].
    split; [split; [reflexivity|contradiction]|]. lia.
  - pose proof (quot2_nonneg size Hge).
    pose proof (alloc_rows_cols size Hge HA) as [HC HF].
    assert (W : wrap (size + 1) = size + 1).
    { apply wrap_in_int. unfold in_int, intMin, intMax.
      apply andb_true_intro. split; apply Z.leb_le; lia. }
    rewrite W.
    destruct (Z.eqb_spec (Z.quot size 2 + 1) 0); [lia|].
    destruct (Z.ltb_spec (size + 1) 0); [lia|].
    destruct (Z.ltb_spec maxAlloc (sizeofFloat32 * (size + 1))); [lia|].
    cbn [orb].
    exists (Z.to_nat (Z.quot size 2 + 1)), (Z.to_nat (size + 1)).
    eexists. split; [reflexivity|]. split; [apply shaped_replicate|]. lia.
Qed.


(** C6: a grid returned for the resolution [size] has [size / 2 + 1] rows
    (the division of Go, which truncates) of [size + 1] columns each; and a
    grid is returned for every resolution from 0 on whose outer slice is
    within the allocator's limit and whose vertices all fall inside the
    grid. *)
Theorem ProjectModelVertices_shape (conv : float32 -> Z) (m : Model)
    (size : Z) (p : ProjectFrom) :
  in_int size = true ->
  (forall g, ProjectModelVertices conv m size p = Returns g ->
     lenZ g = Z.quot size 2 + 1 /\
     forall row, In row g -> lenZ row = size + 1) /\
  (0 <= size -> sizeofSlice * (Z.quot size 2 + 1) <= maxAlloc ->
   forallb (inGrid conv m size p) (vertices m) = true ->
   exists g, ProjectModelVertices conv m size p = Returns g).
Proof.
  intros Hsize. split.
  - intros g H.
    destruct (ProjectModelVertices_Returns _ _ _ _ _ H)
      as (rows & cols & Hinit & Hrows & Hcols & [Hlen Hrow] & _).
    rewrite quot2_in_int in Hrows by assumption. unfold lenZ.
    split; [lia|]. intros row Hin. rewrite (Hrow row Hin).
    assert (Hne : rows <> 0%nat)
      by (destruct g; [contradiction|simpl in *; lia]).
    rewrite (Hcols Hne). apply wrap_succ_in_int; [assumption|].
    rewrite <- (Hcols Hne). lia.
  - intros H0 Hmax Hall.
    pose proof (quot2_nonneg size ltac:(lia)) as Q.
    destruct (initMatrix_Returns size Hsize ltac:(lia) Hmax)
      as (rows & cols & mat & Hinit & Hs & Hr & Hc).
    rewrite ProjectModelVertices_loop, Hinit. cbn [obind].
    destruct (loop_returns conv m size p rows cols Hr Hc (vertices m)
                mat Hs Hall) as (g & Hg & _).
    eauto.
Qed.

Lemma ProjectModelVertices_shape_witness :
  in_int 4 = true /\
  exists g, ProjectModelVertices intOfUnrepresentable_amd64 sampleMesh 4
              ProjectFromSide = Returns g /\
            lenZ g = 3 /\ forall row, In row g -> lenZ row = 5.
Proof.
  split; [reflexivity|].
  destruct (ProjectModelVertices_shape intOfUnrepresentable_amd64 sampleMesh 4
              ProjectFromSide eq_refl) as [Hshape Hret].
  destruct Hret as [g Hg]; [lia|discriminate|reflexivity|].
  exists g. split; [exact Hg|]. exact (Hshape g Hg).
Defined.




(** *** The value of a cell *)

Lemma keepMax_nan (acc : float32) : keepMax acc S754_nan = acc.
Proof.
  unfold keepMax, keepBy. destruct acc as [[]|[]| |[] ? ?]; reflexivity.
Qed.

Lemma gtb_nan_l (x : float32) : F32.gtb S754_nan x = false.
Proof. destruct x as [[]|[]| |[] ? ?]; reflexivity. Qed.

Lemma leb_not_gtb (d x : float32) :
  F32.leb d x = true -> F32.gtb d x = false.
Proof.
  intros H. unfold F32.gtb. fold (F32.ltb x d).
  destruct (F32.ltb x d) eqn:E; [|reflexivity].
  pose proof (F32Facts.leb_ltb_trans _ _ _ H E) as F.
  rewrite F32Facts.ltb_irrefl in F. discriminate.
Qed.

(** The running maximum from zero: what a cell holds after the loop. *)
Lemma running_max_facts (l : list float32) :
  let x := fold_left keepMax l F32.zero in
  (x = F32.zero \/ In x l) /\
  (forall d, In d l -> F32.gtb d x = false) /\
  F32.leb F32.zero x = true /\
  F32.is_nan x = false.
Proof.
  cbv zeta.
  assert (Hle : F32.leb F32.zero (fold_left keepMax l F32.zero) = true).
  { exact (fold_keep_upto_acc F32.gtb (fun a b => F32.leb b a)
             (fun a b => F32Facts.ltb_leb b a)
             (fun a b => F32Facts.ltb_not_nan_r b a)
             F32Facts.leb_refl
             (fun a b d H1 H2 => F32Facts.leb_trans d b a H2 H1)
             l F32.zero eq_refl). }
  split; [|split; [|split]].
  - destruct (fold_keep_attained F32.gtb l F32.zero) as [H|[H _]].
    + right. exact H.
    + left. exact H.
  - intros d Hd. destruct (F32.is_nan d) eqn:Hn.
    + destruct d; try discriminate. apply gtb_nan_l.
    + apply leb_not_gtb.
      exact (fold_keep_bound F32.gtb (fun a b => F32.leb b a)
               (fun a b => F32Facts.ltb_leb b a)
               (fun a b => F32Facts.ltb_not_nan_r b a)
               F32Facts.leb_refl
               (fun a b d H1 H2 => F32Facts.leb_trans d b a H2 H1)
               (fun a b Ha Hb => F32Facts.not_ltb_leb b a Hb Ha)
               l F32.zero d eq_refl Hd Hn).
  - exact Hle.
  - exact (F32Facts.leb_not_nan_r _ _ Hle).
Qed.

Lemma getDimensions_get (m : Model) (k : Z) :
  get3 (getDimensions m) k
  = F32.sub (get3 (snd (getMinsMaxs m)) k) (get3 (fst (getMinsMaxs m)) k).
Proof.
  unfold getDimensions. destruct (getMinsMaxs m) as [mins maxs].
  unfold get3. cbn [fst snd a0 a1 a2].
  destruct (k =? 0); [reflexivity|]. destruct (k =? 1); reflexivity.
Qed.

(** C8, as the code has it: a vertex maps to the row
    [(size - gridX) / 2] and the column [gridY], with the depth
    [(coordinate - minimum) / extent] on the depth axis, and a cell of the
    returned grid holds the running maximum, from the default 0, of the
    depths of the vertices that map to it, a depth being stored only when
    it compares greater: the cell is 0 or the depth of such a vertex, no
    such vertex has a greater depth, and the cell is 0 when no vertex maps
    to it. *)
Theorem ProjectModelVertices_cell_max (conv : float32 -> Z) (m : Model)
    (size : Z) (p : ProjectFrom) (g : list (list float32)) (i j : Z)
    (x : float32) :
  ProjectModelVertices conv m size p = Returns g ->
  0 <= i -> 0 <= j -> cellAt g i j = Some x ->
  (forall v,
     cellRow conv m size p v = Z.quot (wrap (size - gridX conv m size p v)) 2 /\
     cellCol conv m size p v = gridY conv m size p v /\
     depthOf m p v
     = F32.div
         (F32.sub (get3 v (axisDepth p))
                  (get3 (fst (getMinsMaxs m)) (axisDepth p)))
         (F32.sub (get3 (snd (getMinsMaxs m)) (axisDepth p))
                  (get3 (fst (getMinsMaxs m)) (axisDepth p)))) /\
  x = fold_left keepMax (depthsAt conv m size p i j) F32.zero /\
  (x = F32.zero \/ In x (depthsAt conv m size p i j)) /\
  (forall d, In d (depthsAt conv m size p i j) -> F32.gtb d x = false) /\
  (depthsAt conv m size p i j = [] -> x = F32.zero).
Proof.
  intros H Hi Hj Hx.
  destruct (ProjectModelVertices_Returns _ _ _ _ _ H)
    as (rows & cols & _ & _ & _ & _ & Hcell).
  specialize (Hcell i j Hi Hj). rewrite Hx in Hcell.
  specialize (Hcell ltac:(discriminate)). injection Hcell as Hcell.
  split; [|split; [exact Hcell|]].
  - intros v. split; [reflexivity|]. split; [reflexivity|].
    unfold depthOf. rewrite getDimensions_get. reflexivity.
  - destruct (running_max_facts (depthsAt conv m size p i j))
      as (H1 & H2 & _ & _).
    rewrite <- Hcell in H1, H2. split; [exact H1|]. split; [exact H2|].
    intros E. rewrite Hcell, E. reflexivity.
Qed.

Lemma ProjectModelVertices_cell_max_witness :
  exists g x,
    ProjectModelVertices intOfUnrepresentable_amd64 sampleMesh 4
      ProjectFromSide = Returns g /\
    cellAt g 0 2 = Some x /\
    x = fold_left keepMax
          (depthsAt intOfUnrepresentable_amd64 sampleMesh 4 ProjectFromSide 0 2)
          F32.zero /\
    In x (depthsAt intOfUnrepresentable_amd64 sampleMesh 4 ProjectFromSide 0 2).
Proof.
  assert (Hg : ProjectModelVertices intOfUnrepresentable_amd64 sampleMesh 4
                 ProjectFromSide = Returns sampleGrid)
    by (vm_compute; reflexivity).
  assert (Hx : cellAt sampleGrid 0 2 = Some (S754_finite false 8388608 (-25)))
    by (vm_compute; reflexivity).
  exists sampleGrid, (S754_finite false 8388608 (-25)).
  split; [exact Hg|]. split; [exact Hx|].
  destruct (ProjectModelVertices_cell_max intOfUnrepresentable_amd64
              sampleMesh 4 ProjectFromSide sampleGrid 0 2 _ Hg
              ltac:(lia) ltac:(lia) Hx) as (_ & E & [Z0|Hin] & _).
  - discriminate Z0.
  - split; assumption.
Defined.

(** C8 as stated fails on a mesh flat along the depth axis: the cell of
    row 0 and column 2 is the cell of a vertex, whose depth is NaN, and it
    holds 0, which is not the greatest of the depths of the vertices that
    map to it. *)
Lemma ProjectModelVertices_flat_counterexample :
  exists g,
    ProjectModelVertices intOfUnrepresentable_amd64 flatMesh 4 ProjectFromSide
    = Returns g /\
    depthsAt intOfUnrepresentable_amd64 flatMesh 4 ProjectFromSide 0 2
    = [S754_nan] /\
    cellAt g 0 2 = Some F32.zero /\
    ~ isMaxOf F32.zero
        (depthsAt intOfUnrepresentable_amd64 flatMesh 4 ProjectFromSide 0 2).
Proof.
  eexists. split; [vm_compute; reflexivity|].
  split; [vm_compute; reflexivity|]. split; [vm_compute; reflexivity|].
  intros [Hin _]. vm_compute in Hin.
  destruct Hin as [Hin|[]]. discriminate Hin.
Qed.

(** *** Meshes flat along the depth axis *)

Lemma sub_self_finite (s : bool) (m : positive) (e : Z) :
  F32.sub (S754_finite s m e) (S754_finite s m e) = S754_zero false.
Proof.
  unfold F32.sub, SFsub. rewrite Z.min_id. unfold shl_align.
  change IntDef.Z.sub with Z.sub. rewrite !Z.sub_diag. reflexivity.
Qed.

(** The difference of two numerically equal finite floats is a zero. *)
Lemma sub_eq_isZero (a b c : float32) :
  F32.is_finite c = true -> F32.eqb a c = true -> F32.eqb b c = true ->
  isZero (F32.sub a b) = true.
Proof.
  intros Hc Ha Hb.
  apply F32Facts.eqb_inv in Ha as [->|(s & t & -> & ->)];
    apply F32Facts.eqb_inv in Hb as [->|(s' & t' & -> & Ec)].
  - destruct c as [[]| | |s m e]; try discriminate; try reflexivity.
    rewrite sub_self_finite. reflexivity.
  - subst c. destruct s', t'; reflexivity.
  - destruct s, t; reflexivity.
  - destruct s, s'; reflexivity.
Qed.

Lemma div_zero_zero (a b : float32) :
  isZero a = true -> isZero b = true -> F32.div a b = S754_nan.
Proof.
  destruct a as [[]| | |], b as [[]| | |]; try discriminate; reflexivity.
Qed.

Lemma eqb_finite32 (d c : float32) :
  finite32 c = true -> F32.eqb d c = true -> finite32 d = true.
Proof.
  intros Hc Hd. apply F32Facts.eqb_inv in Hd as [->|(s & t & -> & _)];
    [assumption|reflexivity].
Qed.

Lemma flatAlong_coords (m : Model) (k : Z) (c d : float32) :
  flatAlong m k c = true -> In d (coords m k) -> F32.eqb d c = true.
Proof.
  unfold flatAlong. intros H Hd. apply andb_prop in H as [_ H].
  rewrite forallb_forall in H. exact (H d Hd).
Qed.

(** On a mesh flat along the depth axis every depth is NaN. *)
Lemma flat_depth_nan (m : Model) (p : ProjectFrom) (c : float32)
    (v : Array3 float32) :
  flatAlong m (axisDepth p) c = true -> In v (vertices m) ->
  depthOf m p v = S754_nan.
Proof.
  intros Hflat Hv.
  assert (Hk : In (axisDepth p) range3).
  { pose proof (GetAxisForProjection_range p) as H. unfold axisDepth.
    destruct (GetAxisForProjection p) as [[x y] d]. apply H. }
  assert (Hfin : finite32 c = true).
  { unfold flatAlong in Hflat. apply andb_prop in Hflat as [H _]. exact H. }
  assert (Hne : Triangles m <> []).
  { unfold vertices in Hv. destruct (Triangles m); [contradiction|congruence]. }
  destruct (getMinsMaxs_attained_axis m (axisDepth p) Hk Hne) as [Hmin Hmax].
  { intros d Hd. eapply eqb_finite32; [exact Hfin|].
    eapply flatAlong_coords; eassumption. }
  assert (Hcf : F32.is_finite c = true).
  { unfold finite32 in Hfin. apply andb_prop in Hfin as [_ H]. exact H. }
  unfold depthOf. rewrite getDimensions_get. apply div_zero_zero.
  - apply (sub_eq_isZero _ _ c Hcf).
    + eapply flatAlong_coords; [exact Hflat|]. unfold coords.
      apply in_map_iff. exists v. split; [reflexivity|assumption].
    + eapply flatAlong_coords; eassumption.
  - apply (sub_eq_isZero _ _ c Hcf); eapply flatAlong_coords; eassumption.
Qed.

Lemma fold_keepMax_nans (l : list float32) (acc : float32) :
  (forall d, In d l -> d = S754_nan) -> fold_left keepMax l acc = acc.
Proof.
  revert acc. induction l as [|d l IH]; intros acc H; [reflexivity|].
  cbn [fold_left]. rewrite (H d (or_introl eq_refl)), keepMax_nan.
  apply IH. intros d' Hd'. apply H. right. assumption.
Qed.

Lemma In_cellAt (g : list (list float32)) (row : list float32) (x : float32) :
  In row g -> In x row ->
  exists i j, 0 <= i /\ 0 <= j /\ cellAt g i j = Some x.
Proof.
  intros Hrow Hx.
  apply list_elem_of_In, list_elem_of_lookup in Hrow as [i Hi].
  apply list_elem_of_In, list_elem_of_lookup in Hx as [j Hj].
  exists (Z.of_nat i), (Z.of_nat j). split; [lia|]. split; [lia|].
  unfold cellAt. rewrite !Nat2Z.id, Hi. exact Hj.
Qed.

(** C10: every cell of a returned grid is a number that is not negative,
    never NaN, since a value is stored only when it compares greater than
    the cell; on a mesh flat along the depth axis, where every depth is
    NaN, the grid is all zeros. *)
Theorem ProjectModelVertices_cells_nonneg (conv : float32 -> Z) (m : Model)
    (size : Z) (p : ProjectFrom) (g : list (list float32)) :
  ProjectModelVertices conv m size p = Returns g ->
  (forall row x, In row g -> In x row ->
     F32.leb F32.zero x = true /\ F32.is_nan x = false) /\
  (forall c, flatAlong m (axisDepth p) c = true ->
     (forall v, In v (vertices m) -> depthOf m p v = S754_nan) /\
     forall row x, In row g -> In x row -> x = F32.zero).
Proof.
  intros H.
  destruct (ProjectModelVertices_Returns _ _ _ _ _ H)
    as (rows & cols & _ & _ & _ & _ & Hcell).
  split.
  - intros row x Hrow Hx.
    destruct (In_cellAt g row x Hrow Hx) as (i & j & Hi & Hj & Hc).
    specialize (Hcell i j Hi Hj). rewrite Hc in Hcell.
    specialize (Hcell ltac:(discriminate)). injection Hcell as ->.
    destruct (running_max_facts (depthsAt conv m size p i j))
      as (_ & _ & H1 & H2).
    split; assumption.
  - intros c Hflat. split.
    + intros v Hv. eapply flat_depth_nan; eassumption.
    + intros row x Hrow Hx.
      destruct (In_cellAt g row x Hrow Hx) as (i & j & Hi & Hj & Hc).
      specialize (Hcell i j Hi Hj). rewrite Hc in Hcell.
      specialize (Hcell ltac:(discriminate)). injection Hcell as ->.
      apply fold_keepMax_nans. unfold depthsAt. intros d Hd.
      apply in_map_iff in Hd as (v & <- & Hv).
      apply filter_In in Hv as [Hv _].
      eapply flat_depth_nan; eassumption.
Qed.

Lemma ProjectModelVertices_cells_nonneg_witness :
  ProjectModelVertices intOfUnrepresentable_amd64 flatMesh 4 ProjectFromSide
  = Returns (replicate 3 (replicate 5 F32.zero)) /\
  forall row x,
    In row (replicate 3 (replicate 5 F32.zero)) -> In x row -> x = F32.zero.
Proof.
  assert (Hg : ProjectModelVertices intOfUnrepresentable_amd64 flatMesh 4
                 ProjectFromSide = Returns (replicate 3 (replicate 5 F32.zero)))
    by (vm_compute; reflexivity).
  split; [exact Hg|].
  destruct (ProjectModelVertices_cells_nonneg intOfUnrepresentable_amd64
              flatMesh 4 ProjectFromSide _ Hg) as [_ Hflat].
  apply (Hflat F32.zero). vm_compute. reflexivity.
Defined.

(** ** Binary decoder *)

Lemma ReadFull_short (r : Reader) (n : nat) :
  (length (pending r) < n)%nat ->
  ReadFull r n
  = (pending r, Some (shortReadError (pending r) (final r)),
     mkReader [] (final r)).
Proof.
  intros H. unfold ReadFull. destruct n as [|n]; [lia|].
  destruct (Nat.leb_spec (S n) (length (pending r))); [lia|]. reflexivity.
Qed.

Lemma ReadFull_enough (r : Reader) (n : nat) :
  (n <= length (pending r))%nat ->
  ReadFull r n
  = (firstn n (pending r), None, mkReader (skipn n (pending r)) (final r)).
Proof.
  intros H. unfold ReadFull. destruct n as [|n].
  - destruct r. reflexivity.
  - destruct (Nat.leb_spec (S n) (length (pending r))); [reflexivity|lia].
Qed.

(** The streaming decoder reports a stream of fewer than 84 bytes as an
    error. *)
Lemma CreateFromBinarySTL_short (r : Reader) :
  (length (pending r) < 84)%nat ->
  CreateFromBinarySTL r
  = (zeroModel, Some (shortReadError (pending r) (final r)),
     mkReader [] (final r)).
Proof.
  intros H. unfold CreateFromBinarySTL. rewrite ReadFull_short by assumption.
  reflexivity.
Qed.

(** The buffer decoder panics on a buffer of fewer than 84 bytes. *)
Lemma CreateFromByteSlice_short (s : ByteSlice) :
  (len s < 84)%nat -> CreateFromByteSlice s = Panics SliceBoundsOutOfRange.
Proof.
  intros H. unfold CreateFromByteSlice, sliceRange, sliceFrom.
  change (0 <=? 80)%nat with true. change (80 <=? 84)%nat with true.
  cbn [andb].
  destruct (80 <=? cap s)%nat; [|reflexivity]. cbn [obind].
  destruct (84 <=? cap s)%nat; [|reflexivity]. cbn [obind].
  destruct (Nat.leb_spec 84 (len s)); [lia|reflexivity].
Qed.

(** C1, where the code departs from it: on the same bytes, fewer than 84
    of them, the streaming decoder returns an error ([io.EOF] for no byte
    at all, [io.ErrUnexpectedEOF] for some) and the buffer decoder
    panics. *)
Theorem binary_decoders_short_input (bytes : list byte) :
  (length bytes < 84)%nat ->
  CreateFromBinarySTL (mkReader bytes EOF)
  = (zeroModel, Some (match bytes with [] => EOF | _ => ErrUnexpectedEOF end),
     mkReader [] EOF) /\
  CreateFromByteSlice (mkByteSlice bytes (length bytes))
  = Panics SliceBoundsOutOfRange.
Proof.
  intros H. split.
  - rewrite CreateFromBinarySTL_short by assumption. cbn [pending final].
    destruct bytes; reflexivity.
  - apply CreateFromByteSlice_short. assumption.
Qed.

Lemma binary_decoders_short_input_witness :
  CreateFromBinarySTL (mkReader [] EOF)
  = (zeroModel, Some EOF, mkReader [] EOF) /\
  CreateFromByteSlice (mkByteSlice [] 0) = Panics SliceBoundsOutOfRange.
Proof. apply (binary_decoders_short_input []). simpl. lia. Defined.

(** ** ASCII decoder *)

Lemma cutLine_length (s l rest : string) :
  cutLine s = Some (l, rest) ->
  String.length s = (String.length l + String.length rest)%nat /\
  (1 <= String.length l)%nat.
Proof.
  revert l rest. induction s as [|c s IH]; intros l rest; simpl.
  - discriminate.
  - destruct (Ascii.eqb c "010").
    + intros [= <- <-]. simpl. lia.
    + destruct (cutLine s) as [[l' rest']|]; [|discriminate].
      intros [= <- <-]. destruct (IH l' rest' eq_refl). simpl. lia.
Qed.

(** A read never gives text back, and a read without error takes at least
    one byte. *)
Lemma ReadString_text (r : BufReader) :
  (String.length (text (snd (ReadString r))) <= String.length (text r))%nat /\
  (snd (fst (ReadString r)) = None ->
   (String.length (text (snd (ReadString r))) < String.length (text r))%nat).
Proof.
  unfold ReadString. destruct (cutLine (text r)) as [[l rest]|] eqn:E.
  - destruct (cutLine_length _ _ _ E). cbn [fst snd text]. lia.
  - cbn [fst snd text]. split; [simpl; lia|discriminate].
Qed.

(** The line helper reads exactly one line, and fails when the read
    does. *)
Lemma readAndTreatLine_reader (r : BufReader) (mustStartWith sep : string)
    (n : Z) :
  snd (readAndTreatLine r mustStartWith sep n) = snd (ReadString r) /\
  (snd (fst (readAndTreatLine r mustStartWith sep n)) = None ->
   snd (fst (ReadString r)) = None).
Proof.
  unfold readAndTreatLine.
  destruct (ReadString r) as [[line err] r']. cbn [fst snd].
  destruct err as [e|]; [split; [reflexivity|discriminate]|].
  destruct (_ <? _)%nat; [split; [reflexivity|discriminate]|].
  destruct (negb (String.eqb _ _)); [split; [reflexivity|discriminate]|].
  destruct (negb (_ =? _)); split; auto; discriminate.
Qed.

Lemma readAndTreatLine_text (r : BufReader) (mustStartWith sep : string)
    (n : Z) :
  (String.length (text (snd (readAndTreatLine r mustStartWith sep n)))
   <= String.length (text r))%nat /\
  (snd (fst (readAndTreatLine r mustStartWith sep n)) = None ->
   (String.length (text (snd (readAndTreatLine r mustStartWith sep n)))
    < String.length (text r))%nat).
Proof.
  destruct (readAndTreatLine_reader r mustStartWith sep n) as [-> H].
  destruct (ReadString_text r) as [H1 H2]. split; auto.
Qed.

Section ASCIIFacts.

Variable ParseFloat : string -> option float32.

Lemma readVertices_text (r : BufReader) :
  (String.length (text (snd (readVertices ParseFloat r)))
   <= String.length (text r))%nat.
Proof.
  unfold readVertices, range3. cbn [fold_left].
  repeat match goal with
    | |- context [readAndTreatLine ?r0 ?a ?b ?n] =>
        let H := fresh "H" in
        pose proof (proj1 (readAndTreatLine_text r0 a b n)) as H;
        destruct (readAndTreatLine r0 a b n) as [[? [?|]] ?];
        cbn [fst snd] in H |- *; [lia|];
        destruct (parseFields _ _); [|cbn [snd]; lia]
    end.
  cbn [snd]. lia.
Qed.

Lemma readFacet_text (parts : list string) (r : BufReader) :
  (String.length (text (snd (readFacet ParseFloat parts r)))
   <= String.length (text r))%nat.
Proof.
  unfold readFacet. destruct (parseFields _ _); [|cbn [snd]; lia].
  pose proof (proj1 (readAndTreatLine_text r "outer loop" EmptyString 0)) as H1.
  destruct (readAndTreatLine r "outer loop" EmptyString 0) as [[? [?|]] r1];
    cbn [fst snd] in H1 |- *; [lia|].
  pose proof (readVertices_text r1) as H2.
  destruct (readVertices ParseFloat r1) as [[vs|e] r2];
    cbn [fst snd] in H2 |- *; [|lia].
  pose proof (proj1 (readAndTreatLine_text r2 "endloop" EmptyString 0)) as H3.
  destruct (readAndTreatLine r2 "endloop" EmptyString 0) as [[? [?|]] r3];
    cbn [fst snd] in H3 |- *; [lia|].
  pose proof (proj1 (readAndTreatLine_text r3 "endfacet" EmptyString 0)) as H4.
  destruct (readAndTreatLine r3 "endfacet" EmptyString 0) as [[? [?|]] r4];
    cbn [fst snd] in H4 |- *; lia.
Qed.

(** The loop ends before its fuel does when the fuel exceeds the number
    of bytes left. *)
Lemma facetLoop_total (fuel : nat) : forall m r,
  (String.length (text r) < fuel)%nat ->
  exists res, facetLoop ParseFloat fuel m r = Some res.
Proof.
  induction fuel as [|fuel IH]; intros m r Hlen; [lia|].
  cbn [facetLoop].
  pose proof (readAndTreatLine_text r "facet normal " " " 3) as [_ H1].
  destruct (readAndTreatLine r "facet normal " " " 3) as [[parts [e|]] r1];
    cbn [fst snd] in H1; [eauto|].
  specialize (H1 eq_refl).
  pose proof (readFacet_text parts r1) as H2.
  destruct (readFacet ParseFloat parts r1) as [[t|e] r2];
    cbn [snd] in H2; [|eauto].
  apply IH. lia.
Qed.

Lemma CreateFromASCIISTL_total (r : BufReader) :
  exists res, CreateFromASCIISTL ParseFloat r = Some res.
Proof.
  unfold CreateFromASCIISTL.
  destruct (ReadString r) as [[Header [e|]] r1]; [eauto|].
  destruct (sliceFromStr Header 5); [|eauto].
  destruct (facetLoop_total (S (String.length (text r1)))
              (mkModel (headerPrefix ++ Trim a
                          (String " " (String "010" EmptyString))) 0 [])
              r1 ltac:(lia)) as [res ->].
  eauto.
Qed.

Lemma turns_trans (m1 m2 m3 : Model) (r1 r2 r3 : BufReader) :
  turns ParseFloat m1 r1 m2 r2 -> turns ParseFloat m2 r2 m3 r3 ->
  turns ParseFloat m1 r1 m3 r3.
Proof.
  induction 1; intros H'; [assumption|].
  eapply turns_facet; eauto.
Qed.

(** However the loop ends, it ends at the head of a turn reached by
    complete turns; it ends without error exactly on a [facet normal]
    line that does not match, and with an error exactly when the rest of
    a facet does not follow a matched line. *)
Lemma facetLoop_ends (fuel : nat) : forall m r m' err rf,
  facetLoop ParseFloat fuel m r = Some (m', err, rf) ->
  exists r' parts,
    turns ParseFloat m r m' r' /\
    match err with
    | None =>
        exists e,
          readAndTreatLine r' "facet normal " " " 3 = (parts, Some e, rf)
    | Some e =>
        exists r1,
          readAndTreatLine r' "facet normal " " " 3 = (parts, None, r1) /\
          readFacet ParseFloat parts r1 = (inr e, rf)
    end.
Proof.
  induction fuel as [|fuel IH]; intros m r m' err rf; [discriminate|].
  cbn [facetLoop].
  destruct (readAndTreatLine r "facet normal " " " 3)
    as [[parts [e|]] r1] eqn:E1.
  - intros [= <- <- <-]. exists r, parts. split; [constructor|eauto].
  - destruct (readFacet ParseFloat parts r1) as [[t|e] r2] eqn:E2.
    + intros H. destruct (IH _ _ _ _ _ H) as (r' & parts' & Ht & Hend).
      exists r', parts'. split; [|exact Hend].
      eapply turns_facet; eassumption.
    + intros [= <- <- <-]. exists r, parts. split; [constructor|eauto].
Qed.

(** Complete turns keep the header and append one triangle each, the
    count following the length. *)
Lemma turns_model (m m' : Model) (r r' : BufReader) :
  turns ParseFloat m r m' r' ->
  Header m' = Header m /\
  exists ts, Triangles m' = Triangles m ++ ts /\
             wrap32 (NumTriangles m') = wrap32 (NumTriangles m + lenZ ts).
Proof.
  induction 1 as [m r|m r parts r1 t r2 m' r' H1 H2 _ IH].
  - split; [reflexivity|]. exists []. rewrite app_nil_r. unfold lenZ.
    cbn [length]. rewrite Z.add_0_r. split; reflexivity.
  - destruct IH as [Hh (ts & Ht & Hn)]. split; [exact Hh|].
    exists (t :: ts). cbn [appendTriangle Triangles NumTriangles] in *.
    rewrite Ht, <- app_assoc. split; [reflexivity|].
    rewrite Hn. unfold wrap32, lenZ. cbn [length].
    rewrite Zplus_mod_idemp_l. f_equal. lia.
Qed.

End ASCIIFacts.

Lemma substring_all (s : string) : substring 0 (String.length s) s = s.
Proof. induction s as [|c s IH]; simpl; congruence. Qed.

Lemma substring_skip (n : nat) (s t : string) :
  String.length s = n ->
  substring n (String.length (s ++ t) - n) (s ++ t) = t.
Proof.
  revert n. induction s as [|c s IH]; intros n Hn; simpl in *; subst n.
  - rewrite Nat.sub_0_r. apply substring_all.
  - simpl. apply IH. reflexivity.
Qed.

Lemma endsolid_not_facet (l : string) :
  String.prefix "endsolid" l = true -> String.prefix "facet normal " l = false.
Proof.
  destruct l as [|c l]; [discriminate|].
  change (String.prefix "endsolid" (String c l))
    with (if ascii_dec "e" c then String.prefix "ndsolid" l else false).
  destruct (ascii_dec "e" c) as [<-|]; [|discriminate]. reflexivity.
Qed.

(** The lines on which the attempt to read a [facet normal] line fails:
    none left, one too short, one with another prefix. *)
Lemma facet_normal_mismatch (r : BufReader) :
  nextLine r = None \/
  (exists l, nextLine r = Some l /\
             ((String.length l < 13)%nat \/
              String.prefix "facet normal " l = false)) ->
  exists parts e r1,
    readAndTreatLine r "facet normal " " " 3 = (parts, Some e, r1).
Proof.
  unfold nextLine, readAndTreatLine, ReadString.
  destruct (cutLine (text r)) as [[line rest]|].
  - intros [H|(l & [= <-] & H)]; [discriminate|].
    change (String.length "facet normal ") with 13%nat.
    destruct (Nat.ltb_spec (String.length (Trim line lineCutset)) 13);
      [eauto|].
    destruct H as [H|H]; [lia|].
    destruct (String.eqb_spec
                (substring 0 13 (Trim line lineCutset)) "facet normal ")
      as [E|E]; cbn [negb]; [|eauto].
    apply (prefix_correct "facet normal ") in E. congruence.
  - eauto.
Qed.

(** The decoder keeps the header it builds from the first line. *)
Lemma facetLoop_header (ParseFloat : string -> option float32) (fuel : nat)
    (m m' : Model) (r rf : BufReader) (err : option error) :
  facetLoop ParseFloat fuel m r = Some (m', err, rf) -> Header m' = Header m.
Proof.
  intros H. destruct (facetLoop_ends ParseFloat fuel _ _ _ _ _ H)
    as (r' & parts & Ht & _).
  destruct (turns_model ParseFloat _ _ _ _ Ht) as [Hh _]. exact Hh.
Qed.

(** C3, as the code has it: the first line is not compared with
    [solid ]. When no line can be read the decoder returns the error of the
    read at once; otherwise, for a first line of 5 bytes or more, it skips
    5 bytes, whatever they are, and the rest of the line, trimmed of spaces
    and line feeds, is the name in the header; after [solid] that is the
    solid name. *)
Theorem first_line_not_validated (ParseFloat : string -> option float32)
    (r : BufReader) :
  (cutLine (text r) = None ->
   CreateFromASCIISTL ParseFloat r
   = Some (Returns (zeroModel, Some (failure r),
                    mkBufReader EmptyString (failure r)))) /\
  (forall line rest,
     cutLine (text r) = Some (line, rest) ->
     (5 <= String.length line)%nat ->
     exists m err rf,
       CreateFromASCIISTL ParseFloat r = Some (Returns (m, err, rf)) /\
       Header m
       = (headerPrefix
          ++ Trim (substring 5 (String.length line - 5) line)
                  headerCutset)%string) /\
  (forall name rest,
     cutLine (text r) = Some (("solid" ++ name)%string, rest) ->
     exists m err rf,
       CreateFromASCIISTL ParseFloat r = Some (Returns (m, err, rf)) /\
       Header m = (headerPrefix ++ Trim name headerCutset)%string).
Proof.
  assert (Hline : forall line rest,
     cutLine (text r) = Some (line, rest) ->
     (5 <= String.length line)%nat ->
     exists m err rf,
       CreateFromASCIISTL ParseFloat r = Some (Returns (m, err, rf)) /\
       Header m
       = (headerPrefix
          ++ Trim (substring 5 (String.length line - 5) line)
                  headerCutset)%string).
  { intros line rest E Hlen. unfold CreateFromASCIISTL, ReadString.
    rewrite E. unfold sliceFromStr.
    destruct (Nat.leb_spec 5 (String.length line)); [|lia].
    cbn [text].
    destruct (facetLoop_total ParseFloat (S (String.length rest))
                (mkModel (headerPrefix
                          ++ Trim (substring 5 (String.length line - 5) line)
                               headerCutset) 0 [])
                (mkBufReader rest (failure r)) ltac:(simpl; lia))
      as [[[m err] rf] Hres].
    unfold headerCutset in *. rewrite Hres.
    exists m, err, rf. split; [reflexivity|].
    apply facetLoop_header in Hres. exact Hres. }
  split; [|split].
  - intros E. unfold CreateFromASCIISTL, ReadString. rewrite E. reflexivity.
  - exact Hline.
  - intros name rest E.
    destruct (Hline _ _ E) as (m & err & rf & H1 & H2).
    { destruct name; simpl; lia. }
    exists m, err, rf. split; [exact H1|]. rewrite H2.
    rewrite (substring_skip 5 "solid" name eq_refl). reflexivity.
Qed.

Lemma first_line_not_validated_witness :
  exists m err rf,
    CreateFromASCIISTL parseDigit (mkBufReader sampleASCII EOF)
    = Some (Returns (m, err, rf)) /\
    Header m = (headerPrefix ++ "t")%string.
Proof.
  destruct (first_line_not_validated parseDigit (mkBufReader sampleASCII EOF))
    as (_ & _ & H).
  exact (H (" t" ++ nl)%string _ eq_refl).
Defined.

(** C3 as stated fails: a first line that does not begin with [solid ] is
    decoded without error, its first 5 bytes skipped. *)
Lemma first_line_counterexample :
  String.prefix "solid " helloASCII = false /\
  CreateFromASCIISTL parseDigit (mkBufReader helloASCII EOF)
  = Some (Returns (mkModel (headerPrefix ++ "world")%string 0 [], None,
                   mkBufReader EmptyString EOF)).
Proof. split; vm_compute; reflexivity. Qed.

(** ** More on the binary decoder *)

Lemma byteZ_range (b : byte) : 0 <= byteZ b < 256.
Proof. destruct b; vm_compute; split; congruence. Qed.

Lemma Uint32_range (b : list byte) : 0 <= Uint32 b < 2 ^ 32.
Proof.
  unfold Uint32.
  pose proof (byteZ_range (nth 0 b Byte.x00)).
  pose proof (byteZ_range (nth 1 b Byte.x00)).
  pose proof (byteZ_range (nth 2 b Byte.x00)).
  pose proof (byteZ_range (nth 3 b Byte.x00)).
  change (2 ^ 8) with 256. change (2 ^ 16) with 65536.
  change (2 ^ 24) with 16777216. change (2 ^ 32) with 4294967296. lia.
Qed.

Lemma binaryRead_enough (r : Reader) (n : nat) :
  (50 * n <= length (pending r))%nat ->
  binaryRead r (replicate n zeroTriangle)
  = (decodeTriangles n (firstn (50 * n) (pending r)), None,
     mkReader (skipn (50 * n) (pending r)) (final r)).
Proof.
  intros H. unfold binaryRead. rewrite length_replicate.
  rewrite ReadFull_enough by assumption. reflexivity.
Qed.

Lemma binaryRead_short (r : Reader) (n : nat) :
  (length (pending r) < 50 * n)%nat ->
  binaryRead r (replicate n zeroTriangle)
  = (replicate n zeroTriangle,
     Some (shortReadError (pending r) (final r)), mkReader [] (final r)).
Proof.
  intros H. unfold binaryRead. rewrite length_replicate.
  rewrite ReadFull_short by assumption. reflexivity.
Qed.

Lemma length_decodeTriangles (n : nat) : forall b,
  length (decodeTriangles n b) = n.
Proof. induction n as [|n IH]; intros b; simpl; auto. Qed.

(** X1: The streaming decoder on a stream that holds the 84 bytes of the
    header and the [50 * N] bytes of the [N] records the header declares:
    no error, the header trimmed of NUL bytes, the count [N] with as many
    triangles, and exactly [84 + 50 * N] bytes consumed, whatever
    follows. *)
Theorem CreateFromBinarySTL_complete (r : Reader) :
  let N := declaredCount (pending r) in
  (84 + 50 * Z.to_nat N <= length (pending r))%nat ->
  CreateFromBinarySTL r
  = (mkModel (trimHeader (firstn 80 (pending r))) N
       (decodeTriangles (Z.to_nat N)
          (firstn (50 * Z.to_nat N) (skipn 84 (pending r)))),
     None,
     mkReader (skipn (84 + 50 * Z.to_nat N) (pending r)) (final r)) /\
  0 <= N < 2 ^ 32 /\
  lenZ (Triangles (fst (fst (CreateFromBinarySTL r)))) = N.
Proof.
  intros N H.
  assert (E : CreateFromBinarySTL r
    = (mkModel (trimHeader (firstn 80 (pending r))) N
         (decodeTriangles (Z.to_nat N)
            (firstn (50 * Z.to_nat N) (skipn 84 (pending r)))),
       None,
       mkReader (skipn (84 + 50 * Z.to_nat N) (pending r)) (final r))).
  { unfold CreateFromBinarySTL. rewrite ReadFull_enough by lia.
    fold (declaredCount (pending r)). fold N.
    rewrite binaryRead_enough
      by (cbn [pending]; rewrite length_skipn; lia).
    cbn [pending final]. rewrite firstn_firstn, skipn_skipn.
    replace (50 * Z.to_nat N + 84)%nat with (84 + 50 * Z.to_nat N)%nat by lia.
    reflexivity. }
  split; [exact E|]. split; [apply Uint32_range|].
  rewrite E. cbn [fst Triangles]. unfold lenZ.
  rewrite length_decodeTriangles. pose proof (Uint32_range
    (skipn 80 (firstn 84 (pending r)))). fold (declaredCount (pending r)) in H0.
  fold N in H0. lia.
Qed.

Lemma CreateFromBinarySTL_complete_witness :
  CreateFromBinarySTL
    (mkReader (repeat Byte.x41 80 ++ repeat Byte.x00 4 ++ [Byte.x2a]) EOF)
  = (mkModel (string_of_list_byte (repeat Byte.x41 80)) 0 [], None,
     mkReader [Byte.x2a] EOF).
Proof.
  destruct (CreateFromBinarySTL_complete
              (mkReader (repeat Byte.x41 80 ++ repeat Byte.x00 4 ++ [Byte.x2a])
                 EOF)) as [E _].
  - vm_compute. lia.
  - rewrite E. vm_compute. reflexivity.
Defined.

(** X2: The streaming decoder on a stream that holds the header but fewer
    bytes than the records it declares: the error of the short read,
    returned with a model that already has the header, the declared count
    and as many zero triangles; the stream is consumed to its end. *)
Theorem CreateFromBinarySTL_truncated_records (r : Reader) :
  let N := declaredCount (pending r) in
  (84 <= length (pending r))%nat ->
  (length (pending r) < 84 + 50 * Z.to_nat N)%nat ->
  CreateFromBinarySTL r
  = (mkModel (trimHeader (firstn 80 (pending r))) N
       (replicate (Z.to_nat N) zeroTriangle),
     Some (shortReadError (skipn 84 (pending r)) (final r)),
     mkReader [] (final r)).
Proof.
  intros N H1 H2. unfold CreateFromBinarySTL.
  rewrite ReadFull_enough by lia.
  fold (declaredCount (pending r)). fold N.
  rewrite binaryRead_short by (cbn [pending]; rewrite length_skipn; lia).
  cbn [pending final]. rewrite firstn_firstn. reflexivity.
Qed.

Lemma CreateFromBinarySTL_truncated_records_witness :
  CreateFromBinarySTL
    (mkReader (repeat Byte.x41 80 ++ [Byte.x01; Byte.x00; Byte.x00; Byte.x00]
               ++ repeat Byte.x00 49) EOF)
  = (mkModel (string_of_list_byte (repeat Byte.x41 80)) 1 [zeroTriangle],
     Some ErrUnexpectedEOF, mkReader [] EOF).
Proof.
  rewrite (CreateFromBinarySTL_truncated_records
             (mkReader (repeat Byte.x41 80
                        ++ [Byte.x01; Byte.x00; Byte.x00; Byte.x00]
                        ++ repeat Byte.x00 49) EOF));
    [vm_compute; reflexivity|vm_compute; lia|vm_compute; lia].
Defined.

Lemma CreateFromByteSlice_stream (s : ByteSlice) :
  (84 <= len s)%nat -> (len s <= cap s)%nat ->
  CreateFromByteSlice s
  = Returns (fst (CreateFromBinarySTL
                    (mkReader (firstn (len s) (backing s)) EOF))).
Proof.
  intros H1 H2. unfold CreateFromByteSlice, sliceRange, sliceFrom.
  change (0 <=? 80)%nat with true. change (80 <=? 84)%nat with true.
  cbn [andb].
  destruct (Nat.leb_spec 80 (cap s)); [|lia]. cbn [obind].
  destruct (Nat.leb_spec 84 (cap s)); [|lia]. cbn [obind].
  destruct (Nat.leb_spec 84 (len s)); [|lia]. cbn [obind].
  unfold CreateFromBinarySTL.
  rewrite ReadFull_enough
    by (cbn [pending]; rewrite length_firstn; unfold cap in *; lia).
  cbn [pending final]. rewrite !firstn_firstn, !skipn_firstn_comm.
  change (80 - 0)%nat with 80%nat. change (84 - 80)%nat with 4%nat.
  change (skipn 0 (backing s)) with (backing s).
  replace (Init.Nat.min 80 (Init.Nat.min 84 (len s))) with 80%nat by lia.
  replace (Init.Nat.min 84 (len s) - 80)%nat with 4%nat by lia.
  destruct (binaryRead _ _) as [[ts [e|]] r']; reflexivity.
Qed.

(** X3: On a buffer of 84 bytes or more the two entry points agree: the buffer
    decoder returns the model and the error that the streaming decoder
    returns on a stream of the bytes of the buffer. *)
Theorem binary_entry_points_agree (s : ByteSlice) :
  (84 <= len s)%nat -> (len s <= cap s)%nat ->
  CreateFromByteSlice s
  = Returns (fst (CreateFromBinarySTL
                    (mkReader (firstn (len s) (backing s)) EOF))).
Proof. apply CreateFromByteSlice_stream. Qed.

(** X16: The buffer decoder on a buffer of 84 bytes or more that is shorter
    than the header and the records it declares: no panic, but the error
    of the short read ([io.EOF] when no record byte is there,
    [io.ErrUnexpectedEOF] otherwise), with the header, the declared count
    and as many zero triangles in the model. *)
Theorem CreateFromByteSlice_truncated_records (s : ByteSlice) :
  let bytes := firstn (len s) (backing s) in
  let N := declaredCount bytes in
  (84 <= len s)%nat -> (len s <= cap s)%nat ->
  (len s < 84 + 50 * Z.to_nat N)%nat ->
  CreateFromByteSlice s
  = Returns (mkModel (trimHeader (firstn 80 bytes)) N
               (replicate (Z.to_nat N) zeroTriangle),
             Some (match skipn 84 bytes with
                   | [] => EOF
                   | _ => ErrUnexpectedEOF
                   end)).
Proof.
  intros bytes N H1 H2 H3. rewrite CreateFromByteSlice_stream by assumption.
  fold bytes. unfold CreateFromBinarySTL.
  assert (Hlen : length bytes = len s).
  { subst bytes. rewrite length_firstn. unfold cap in H2. lia. }
  rewrite ReadFull_enough by (cbn [pending]; lia).
  cbn [pending final]. fold (declaredCount bytes). fold N.
  rewrite binaryRead_short by (cbn [pending]; rewrite length_skipn; lia).
  cbn [pending final fst]. rewrite firstn_firstn.
  change (Init.Nat.min 80 84) with 80%nat.
  unfold shortReadError. destruct (skipn 84 bytes); reflexivity.
Qed.

Lemma CreateFromByteSlice_truncated_records_witness :
  CreateFromByteSlice
    (mkByteSlice (repeat Byte.x41 80 ++ [Byte.x02; Byte.x00; Byte.x00; Byte.x00]
                  ++ repeat Byte.x00 50) 134)
  = Returns (mkModel (string_of_list_byte (repeat Byte.x41 80)) 2
               [zeroTriangle; zeroTriangle], Some ErrUnexpectedEOF).
Proof.
  rewrite (CreateFromByteSlice_truncated_records
             (mkByteSlice (repeat Byte.x41 80
                           ++ [Byte.x02; Byte.x00; Byte.x00; Byte.x00]
                           ++ repeat Byte.x00 50) 134));
    [vm_compute; reflexivity|vm_compute; lia..].
Defined.

Lemma binary_entry_points_agree_witness :
  CreateFromByteSlice (mkByteSlice (repeat Byte.x00 84) 84)
  = Returns (fst (CreateFromBinarySTL (mkReader (repeat Byte.x00 84) EOF))).
Proof.
  apply (binary_entry_points_agree (mkByteSlice (repeat Byte.x00 84) 84));
    vm_compute; lia.
Defined.

(** *** The floats of decoded records *)

Lemma digits2_pos_lower (m : positive) :
  2 ^ (Z.pos (digits2_pos m) - 1) <= Z.pos m.
Proof.
  induction m as [m IH|m IH|]; simpl digits2_pos;
    rewrite ?Pos2Z.inj_succ; [| |reflexivity];
    replace (Z.succ (Z.pos (digits2_pos m)) - 1)
      with (Z.succ (Z.pos (digits2_pos m) - 1)) by lia;
    rewrite Z.pow_succ_r by lia; lia.
Qed.

Lemma digits2_pos_le (m : positive) (k : Z) :
  0 <= k -> Z.pos m < 2 ^ k -> Z.pos (digits2_pos m) <= k.
Proof.
  intros Hk H. destruct (Z.le_gt_cases (Z.pos (digits2_pos m)) k) as [|G];
    [assumption|].
  pose proof (digits2_pos_lower m) as L.
  assert (2 ^ k <= 2 ^ (Z.pos (digits2_pos m) - 1))
    by (apply Z.pow_le_mono_r; lia).
  lia.
Qed.

Lemma digits2_pos_ge (m : positive) (k : Z) :
  0 <= k -> 2 ^ k <= Z.pos m -> k < Z.pos (digits2_pos m).
Proof.
  intros Hk H. pose proof (F32Facts.digits2_pos_bound m) as U.
  apply (Z.pow_lt_mono_r_iff 2); lia.
Qed.

(** Every bit pattern is a well-formed binary32 number. *)
Lemma of_bits_valid (b : Z) : F32.valid (F32.of_bits b) = true.
Proof.
  unfold F32.of_bits.
  replace (Z.land (Z.shiftr b 23) 255) with (Z.shiftr b 23 mod 2 ^ 8)
    by (symmetry; apply (Z.land_ones _ 8); lia).
  replace (Z.land b 8388607) with (b mod 2 ^ 23)
    by (symmetry; apply (Z.land_ones _ 23); lia).
  pose proof (Z.mod_pos_bound (Z.shiftr b 23) (2 ^ 8) eq_refl) as He.
  pose proof (Z.mod_pos_bound b (2 ^ 23) eq_refl) as Hm.
  set (e := Z.shiftr b 23 mod 2 ^ 8) in *. set (m := b mod 2 ^ 23) in *.
  change (2 ^ 8) with 256 in He.
  destruct (Z.eqb_spec e 0) as [E0|E0].
  - destruct m as [|p|p] eqn:Em; try reflexivity.
    unfold F32.valid, valid_binary, bounded, canonical_mantissa, fexp, emin,
      F32.prec, F32.emax.
    pose proof (digits2_pos_le p 23 ltac:(lia) (proj2 Hm)).
    apply andb_true_intro. split; [apply Z.eqb_eq|apply Z.leb_le]; lia.
  - destruct (Z.eqb_spec e 255) as [E1|E1].
    + destruct (m =? 0); reflexivity.
    + change 8388608 with (2 ^ 23).
      destruct (m + 2 ^ 23) as [|p|p] eqn:Ep; try reflexivity.
      unfold F32.valid, valid_binary, bounded, canonical_mantissa, fexp, emin,
        F32.prec, F32.emax.
      assert (U : Z.pos p < 2 ^ 24)
        by (change (2 ^ 24) with (2 ^ 23 + 2 ^ 23); lia).
      pose proof (digits2_pos_le p 24 ltac:(lia) U).
      pose proof (digits2_pos_ge p 23 ltac:(lia) ltac:(lia)).
      apply andb_true_intro. split; [apply Z.eqb_eq|apply Z.leb_le]; lia.
Qed.

Lemma decodeVec_valid (b : list byte) (c : float32) :
  In c (elems3 (decodeVec b)) -> F32.valid c = true.
Proof.
  unfold decodeVec, decodeFloat32, elems3. cbn [a0 a1 a2].
  intros [<-|[<-|[<-|[]]]]; apply of_bits_valid.
Qed.

Lemma decodeTriangles_valid (n : nat) : forall b t c,
  In t (decodeTriangles n b) -> In c (floatsOf t) -> F32.valid c = true.
Proof.
  induction n as [|n IH]; intros b t c Ht Hc; [contradiction|].
  destruct Ht as [<-|Ht]; [|eapply IH; eassumption].
  unfold floatsOf, decodeTriangle in Hc. cbn [Normal Vertices] in Hc.
  apply in_app_or in Hc as [Hc|Hc]; [eapply decodeVec_valid; eassumption|].
  unfold elems3 at 2 in Hc. cbn [a0 a1 a2 flat_map] in Hc.
  rewrite app_nil_r in Hc.
  repeat (apply in_app_or in Hc as [Hc|Hc];
          [eapply decodeVec_valid; eassumption|]).
  eapply decodeVec_valid; eassumption.
Qed.

Lemma of_bits_fields (b : Z) :
  0 <= b < 2 ^ 32 ->
  0 <= expField b < 256 /\
  0 <= mantField b < 8388608 /\
  b = Z.b2z (signBit b) * 2147483648 + expField b * 8388608 + mantField b.
Proof.
  intros Hb. unfold signBit, expField, mantField.
  replace (Z.land (Z.shiftr b 23) 255) with (Z.shiftr b 23 mod 2 ^ 8)
    by (symmetry; apply (Z.land_ones _ 8); lia).
  replace (Z.land b 8388607) with (b mod 2 ^ 23)
    by (symmetry; apply (Z.land_ones _ 23); lia).
  rewrite Z.shiftr_div_pow2 by lia.
  rewrite Z.testbit_spec' by lia.
  change (2 ^ 32) with 4294967296 in Hb.
  change (2 ^ 8) with 256. change (2 ^ 23) with 8388608.
  change (2 ^ 31) with 2147483648.
  Z.div_mod_to_equations. lia.
Qed.

(** The float of a pattern, by its three fields. *)
Lemma of_bits_cases (b : Z) :
  0 <= b < 2 ^ 32 ->
  F32.of_bits b =
  if expField b =? 0 then
    if mantField b =? 0 then S754_zero (signBit b)
    else S754_finite (signBit b) (Z.to_pos (mantField b)) (-149)
  else if expField b =? 255 then
    if mantField b =? 0 then S754_infinity (signBit b) else S754_nan
  else S754_finite (signBit b) (Z.to_pos (mantField b + 8388608))
                   (expField b - 150).
Proof.
  intros Hb. destruct (of_bits_fields b Hb) as (He & Hm & _).
  unfold F32.of_bits. fold (signBit b) (expField b) (mantField b).
  destruct (expField b =? 0).
  - destruct (mantField b) as [|p|p]; try reflexivity. lia.
  - destruct (expField b =? 255); [reflexivity|].
    destruct (mantField b + 8388608) as [|p|p] eqn:E; try lia.
    reflexivity.
Qed.

(** Two patterns with the same float are the same pattern, unless they are
    patterns of NaN. *)
Lemma of_bits_inj (b1 b2 : Z) :
  0 <= b1 < 2 ^ 32 -> 0 <= b2 < 2 ^ 32 ->
  F32.is_nan (F32.of_bits b1) = false ->
  F32.of_bits b1 = F32.of_bits b2 -> b1 = b2.
Proof.
  intros H1 H2.
  rewrite (of_bits_cases b1 H1), (of_bits_cases b2 H2).
  destruct (of_bits_fields b1 H1) as (He1 & Hm1 & D1).
  destruct (of_bits_fields b2 H2) as (He2 & Hm2 & D2).
  revert D1 D2.
  generalize dependent (expField b1). intros e1 He1.
  generalize dependent (expField b2). intros e2 He2.
  generalize dependent (mantField b1). intros m1 Hm1.
  generalize dependent (mantField b2). intros m2 Hm2.
  generalize (signBit b1) (signBit b2). intros s1 s2 D1 D2.
  destruct (Z.eqb_spec e1 0), (Z.eqb_spec e2 0);
    destruct (Z.eqb_spec m1 0), (Z.eqb_spec m2 0);
    try destruct (Z.eqb_spec e1 255); try destruct (Z.eqb_spec e2 255);
    intros Hn E; try discriminate Hn; try discriminate E;
    injection E as Es; subst;
    repeat match goal with
      | H : Z.to_pos ?a = Z.to_pos ?b |- _ => apply Z2Pos.inj in H; [|lia|lia]
      end; try lia.
Qed.

(** The patterns of NaN and of the infinities. *)
Lemma of_bits_specials (b : Z) :
  0 <= b < 2 ^ 32 ->
  (F32.is_nan (F32.of_bits b) = true
   <-> expField b = 255 /\ mantField b <> 0) /\
  (F32.of_bits b = S754_infinity (signBit b)
   <-> expField b = 255 /\ mantField b = 0) /\
  (F32.is_finite (F32.of_bits b) = true <-> expField b <> 255).
Proof.
  intros Hb. rewrite (of_bits_cases b Hb).
  destruct (of_bits_fields b Hb) as (He & Hm & _).
  destruct (Z.eqb_spec (expField b) 0) as [E0|E0];
    [|destruct (Z.eqb_spec (expField b) 255) as [E1|E1]];
    destruct (Z.eqb_spec (mantField b) 0) as [M|M]; cbn;
    repeat split; intros; try discriminate; try lia; try tauto;
    try (exfalso; lia); try reflexivity.
Qed.

Lemma nth_skipn_add {A} (a k : nat) (d : A) : forall l,
  nth k (skipn a l) d = nth (a + k) l d.
Proof.
  induction a as [|a IH]; intros l; [reflexivity|].
  destruct l as [|x l]; [destruct k; reflexivity|]. cbn [skipn]. apply IH.
Qed.

Lemma nth_firstn_lt {A} (n k : nat) (d : A) : forall l,
  (k < n)%nat -> nth k (firstn n l) d = nth k l d.
Proof.
  revert k. induction n as [|n IH]; intros k l H; [lia|].
  destruct l as [|x l]; [reflexivity|].
  destruct k as [|k]; [reflexivity|]. cbn [firstn nth]. apply IH. lia.
Qed.

(** A word read inside a prefix of the bytes is the word of the bytes. *)
Lemma Uint32_skipn_firstn (a n : nat) (l : list byte) :
  (a + 4 <= n)%nat ->
  Uint32 (skipn a (firstn n l)) = Uint32 (skipn a l).
Proof.
  intros H. unfold Uint32. rewrite !nth_skipn_add.
  rewrite !nth_firstn_lt by lia. reflexivity.
Qed.

Lemma recordWords_prefix (a n : nat) (l : list byte) :
  (a + 48 <= n)%nat ->
  recordWords (skipn a (firstn n l)) = recordWords (skipn a l).
Proof.
  intros H. unfold recordWords. apply map_ext_in. intros k Hk.
  apply in_seq in Hk. rewrite !skipn_skipn.
  apply Uint32_skipn_firstn. lia.
Qed.

(** The floats of a decoded record are the floats of its twelve words. *)
Lemma floatsOf_decodeTriangle (b : list byte) :
  floatsOf (decodeTriangle b) = map F32.of_bits (recordWords b).
Proof.
  unfold floatsOf, decodeTriangle, decodeVec, decodeFloat32, recordWords,
    elems3.
  cbn [Normal Vertices a0 a1 a2 flat_map app map seq].
  rewrite !skipn_skipn. reflexivity.
Qed.

Lemma decodeTriangles_lookup (n : nat) : forall (b : list byte) (i : nat),
  (i < n)%nat ->
  decodeTriangles n b !! i = Some (decodeTriangle (skipn (50 * i) b)).
Proof.
  induction n as [|n IH]; intros b i H; [lia|].
  destruct i as [|i]; [reflexivity|].
  cbn [decodeTriangles].
  change ((decodeTriangle b :: decodeTriangles n (skipn 50 b)) !! S i)
    with (decodeTriangles n (skipn 50 b) !! i).
  rewrite IH by lia. rewrite skipn_skipn. do 3 f_equal. lia.
Qed.

(** The allocation of the triangles of a file returns, whatever the count
    the file declares. *)
Lemma make_Triangles (bytes : list byte) :
  make sizeofTriangle zeroTriangle (declaredCount bytes)
  = Returns (replicate (Z.to_nat (declaredCount bytes)) zeroTriangle).
Proof.
  pose proof (Uint32_range (skipn 80 (firstn 84 bytes))) as H.
  fold (declaredCount bytes) in H.
  apply make_Returns; unfold sizeofTriangle, maxAlloc; lia.
Qed.

Lemma CreateFromBinarySTL_enough (r : Reader) :
  (84 + 50 * Z.to_nat (declaredCount (pending r)) <= length (pending r))%nat ->
  CreateFromBinarySTL r
  = (mkModel (trimHeader (firstn 80 (pending r))) (declaredCount (pending r))
       (decodeTriangles (Z.to_nat (declaredCount (pending r)))
          (firstn (50 * Z.to_nat (declaredCount (pending r)))
             (skipn 84 (pending r)))),
     None,
     mkReader (skipn (84 + 50 * Z.to_nat (declaredCount (pending r)))
                 (pending r)) (final r)).
Proof.
  intros H. unfold CreateFromBinarySTL. rewrite ReadFull_enough by lia.
  fold (declaredCount (pending r)).
  rewrite binaryRead_enough
    by (cbn [pending]; rewrite length_skipn; lia).
  cbn [pending final]. rewrite firstn_firstn, skipn_skipn.
  replace (50 * Z.to_nat (declaredCount (pending r)) + 84)%nat
    with (84 + 50 * Z.to_nat (declaredCount (pending r)))%nat by lia.
  reflexivity.
Qed.

(** Without error, the triangle [i] of the model is the record [i] of the
    stream. *)
Lemma CreateFromBinarySTL_record (r : Reader) (i : nat) (t : Triangle) :
  snd (fst (CreateFromBinarySTL r)) = None ->
  Triangles (fst (fst (CreateFromBinarySTL r))) !! i = Some t ->
  floatsOf t
  = map F32.of_bits (recordWords (skipn (84 + 50 * i) (pending r))).
Proof.
  destruct (Nat.le_gt_cases 84 (length (pending r))) as [H84|H84];
    [|rewrite CreateFromBinarySTL_short by lia; discriminate].
  destruct (Nat.le_gt_cases
              (84 + 50 * Z.to_nat (declaredCount (pending r)))
              (length (pending r))) as [H|H].
  - rewrite (CreateFromBinarySTL_enough r H). cbn [fst snd Triangles].
    intros _ Ht.
    assert (Hi : (i < Z.to_nat (declaredCount (pending r)))%nat).
    { apply lookup_lt_Some in Ht. rewrite length_decodeTriangles in Ht.
      exact Ht. }
    rewrite decodeTriangles_lookup in Ht by assumption.
    assert (Et : t = decodeTriangle
                       (skipn (50 * i)
                          (firstn (50 * Z.to_nat (declaredCount (pending r)))
                             (skipn 84 (pending r))))) by congruence.
    rewrite Et. rewrite floatsOf_decodeTriangle.
    rewrite recordWords_prefix by lia.
    rewrite skipn_skipn. do 2 f_equal. f_equal. lia.
  - unfold CreateFromBinarySTL. rewrite ReadFull_enough by lia.
    fold (declaredCount (pending r)).
    rewrite binaryRead_short by (cbn [pending]; rewrite length_skipn; lia).
    discriminate.
Qed.

(** X4: Whatever the bytes, every float of every triangle a binary decoder
    returns, with or without error, is a well-formed binary32 number; when
    there is no error the floats of the triangle [i] are those of the twelve
    words of the record [i] of the stream; a word whose exponent field is
    all ones is decoded as it is, to an infinity of its sign when its
    mantissa field is 0 and to NaN otherwise; and no two words that are not
    NaN give the same float. *)
Theorem CreateFromBinarySTL_floats_valid (r : Reader) :
  (forall t c,
     In t (Triangles (fst (fst (CreateFromBinarySTL r)))) ->
     In c (floatsOf t) -> F32.valid c = true) /\
  (snd (fst (CreateFromBinarySTL r)) = None ->
   forall (i : nat) (t : Triangle),
     Triangles (fst (fst (CreateFromBinarySTL r))) !! i = Some t ->
     floatsOf t
     = map F32.of_bits (recordWords (skipn (84 + 50 * i) (pending r)))) /\
  (forall b, 0 <= b < 2 ^ 32 ->
     (F32.is_nan (F32.of_bits b) = true
      <-> expField b = 255 /\ mantField b <> 0) /\
     (F32.of_bits b = S754_infinity (signBit b)
      <-> expField b = 255 /\ mantField b = 0) /\
     (F32.is_finite (F32.of_bits b) = true <-> expField b <> 255)) /\
  (forall b1 b2,
     0 <= b1 < 2 ^ 32 -> 0 <= b2 < 2 ^ 32 ->
     F32.is_nan (F32.of_bits b1) = false ->
     F32.of_bits b1 = F32.of_bits b2 -> b1 = b2).
Proof.
  split; [|split; [|split]].
  - unfold CreateFromBinarySTL.
    destruct (ReadFull r 84) as [[header [e|]] r1]; [intros t c []|].
    unfold binaryRead.
    destruct (ReadFull r1 _) as [[buf [e|]] r2]; cbn [fst Triangles].
    + intros t c Ht Hc.
      apply list_elem_of_In, elem_of_replicate in Ht as [-> _].
      unfold floatsOf, zeroTriangle in Hc. cbn in Hc.
      repeat (destruct Hc as [<-|Hc]; [reflexivity|]). contradiction.
    + apply decodeTriangles_valid.
  - intros He i t Ht. apply CreateFromBinarySTL_record; assumption.
  - apply of_bits_specials.
  - apply of_bits_inj.
Qed.

Lemma CreateFromBinarySTL_floats_valid_witness :
  floatsOf (decodeTriangle specialsRecord)
  = [S754_nan; S754_infinity false; S754_infinity true]
    ++ repeat F32.zero 9.
Proof.
  destruct (CreateFromBinarySTL_floats_valid (mkReader specialsFile EOF)) as (_ & H & _).
  assert (E : snd (fst (CreateFromBinarySTL (mkReader specialsFile EOF)))
              = None) by (vm_compute; reflexivity).
  assert (L : Triangles (fst (fst (CreateFromBinarySTL
                                     (mkReader specialsFile EOF)))) !! 0%nat
              = Some (decodeTriangle specialsRecord))
    by (vm_compute; reflexivity).
  rewrite (H E 0%nat _ L). vm_compute. reflexivity.
Defined.

(** ** More on the ASCII decoder *)

Lemma string_length_app (s t : string) :
  String.length (s ++ t) = (String.length s + String.length t)%nat.
Proof. induction s as [|c s IH]; simpl; auto. Qed.

Lemma substring_zero_len (n : nat) (s : string) :
  substring n 0 s = EmptyString.
Proof.
  revert n. induction s as [|c s IH]; intros [|n]; simpl; auto.
Qed.

Lemma substring_app_prefix (s t : string) :
  substring 0 (String.length s) (s ++ t) = s.
Proof. induction s as [|c s IH]; simpl; [apply substring_zero_len|congruence]. Qed.

Lemma substring_split (n : nat) (l : string) :
  (n <= String.length l)%nat ->
  l = (substring 0 n l ++ substring n (String.length l - n) l)%string.
Proof.
  revert n. induction l as [|c l IH]; intros [|n] H; simpl in *; try lia.
  - reflexivity.
  - f_equal. symmetry. apply substring_all.
  - rewrite <- (IH n) by lia. reflexivity.
Qed.

Lemma string_app_inv_head (s a b : string) :
  (s ++ a)%string = (s ++ b)%string -> a = b.
Proof.
  induction s as [|c s IH]; simpl; [auto|]. intros [= H]. auto.
Qed.

(** When the line helper succeeds: the next line, trimmed, is the prefix
    followed by a remainder that splits into the expected number of parts,
    which are returned. *)
Lemma readAndTreatLine_ok (r : BufReader) (pre sep : string) (n : Z)
    (parts : list string) (r' : BufReader) :
  readAndTreatLine r pre sep n = (parts, None, r') <->
  exists line rest after,
    cutLine (text r) = Some (line, after) /\
    Trim line lineCutset = (pre ++ rest)%string /\
    parts = Split rest sep /\ lenZ parts = n /\
    r' = mkBufReader after (failure r).
Proof.
  unfold readAndTreatLine, ReadString.
  destruct (cutLine (text r)) as [[line after]|].
  - set (t := Trim line lineCutset).
    destruct (Nat.ltb_spec (String.length t) (String.length pre)) as [Hlt|Hge].
    + split; [discriminate|]. intros (l & rest & a & [= <- <-] & Ht & _).
      fold t in Ht. rewrite Ht, string_length_app in Hlt. lia.
    + destruct (String.eqb_spec (substring 0 (String.length pre) t) pre)
        as [Hp|Hp]; cbn [negb].
      * pose proof (substring_split _ _ Hge) as Hsplit. rewrite Hp in Hsplit.
        set (rest := substring (String.length pre)
                       (String.length t - String.length pre) t) in *.
        destruct (Z.eqb_spec (lenZ (Split rest sep)) n) as [Hn|Hn];
          cbn [negb].
        -- split.
           ++ intros [= <- <-]. exists line, rest, after.
              repeat split; auto.
           ++ intros (l & rest' & a & [= <- <-] & Ht & -> & _ & ->).
              fold t in Ht. rewrite Ht in Hsplit.
              apply string_app_inv_head in Hsplit. rewrite Hsplit.
              reflexivity.
        -- split; [discriminate|].
           intros (l & rest' & a & [= <- <-] & Ht & -> & Hlen & _).
           fold t in Ht. rewrite Ht in Hsplit.
           apply string_app_inv_head in Hsplit. rewrite Hsplit in Hlen.
           contradiction.
      * split; [discriminate|].
        intros (l & rest & a & [= <- <-] & Ht & _). fold t in Ht.
        rewrite Ht, substring_app_prefix in Hp. contradiction.
  - split; [discriminate|]. intros (l & rest & a & [=] & _).
Qed.

Lemma explode_nonempty (s : string) : forall more acc,
  acc <> EmptyString \/ s <> EmptyString -> explode more acc s <> [].
Proof.
  induction s as [|c s IH]; intros more acc H; cbn [explode].
  - destruct H as [H|H]; [|congruence]. destruct acc; congruence.
  - destruct more as [|[|k]].
    + destruct (runeWidth (String c s)) as [|[|k]]; try discriminate.
      apply IH. left. discriminate.
    + discriminate.
    + apply IH. left. destruct acc; discriminate.
Qed.

Lemma Split_empty_sep (rest : string) :
  lenZ (Split rest EmptyString) = 0 <-> rest = EmptyString.
Proof.
  unfold Split, lenZ. split.
  - intros H. destruct rest as [|c rest]; [reflexivity|].
    destruct (explode 0 EmptyString (String c rest)) eqn:E;
      [|simpl in H; lia].
    exfalso. revert E. apply explode_nonempty. right. discriminate.
  - intros ->. reflexivity.
Qed.

Lemma string_app_empty_r (s : string) : (s ++ EmptyString)%string = s.
Proof. induction s as [|c s IH]; simpl; congruence. Qed.

(** X5: A line is accepted as the keyword [kw] (as [outer loop], [endloop] and
    [endfacet] are read) exactly when, trimmed of blanks, it is the keyword
    and nothing more. *)
Theorem keyword_line_exact (r : BufReader) (kw : string) :
  (exists parts r', readAndTreatLine r kw EmptyString 0 = (parts, None, r'))
  <-> nextLine r = Some kw.
Proof.
  unfold nextLine. split.
  - intros (parts & r' & H).
    apply readAndTreatLine_ok in H
      as (line & rest & after & -> & Ht & -> & Hn & _).
    apply Split_empty_sep in Hn. subst rest.
    rewrite Ht, string_app_empty_r. reflexivity.
  - destruct (cutLine (text r)) as [[line after]|] eqn:E; [|discriminate].
    intros [= Ht]. exists [], (mkBufReader after (failure r)).
    apply readAndTreatLine_ok. exists line, EmptyString, after.
    rewrite string_app_empty_r. auto.
Qed.

Lemma splitOn_space_length (s : string) : forall acc,
  length (splitOn space 0 acc s) = S (countChar " " s).
Proof.
  induction s as [|c s IH]; intros acc; [reflexivity|].
  cbn [splitOn countChar].
  change (String.prefix space (String c s))
    with (if ascii_dec " " c then String.prefix EmptyString s else false).
  destruct (ascii_dec " " c) as [<-|Hne].
  - replace (String.prefix EmptyString s) with true by (destruct s; reflexivity).
    cbn [length]. change (String.length space - 1)%nat with 0%nat.
    rewrite IH. reflexivity.
  - rewrite IH. destruct (Ascii.eqb_spec c " "); [congruence|reflexivity].
Qed.

(** X6: A line is accepted as three fields after the prefix [pre] (as
    [facet normal ] and [vertex ] lines are read) exactly when, trimmed of
    blanks, it is the prefix followed by a remainder with exactly two
    spaces: a doubled space between two fields, which makes an empty
    fourth part, is a mismatch. *)
Theorem field_line_two_spaces (r : BufReader) (pre : string) :
  (exists parts r', readAndTreatLine r pre space 3 = (parts, None, r'))
  <-> exists rest,
        nextLine r = Some (pre ++ rest)%string /\ countChar " " rest = 2%nat.
Proof.
  unfold nextLine. split.
  - intros (parts & r' & H).
    apply readAndTreatLine_ok in H
      as (line & rest & after & -> & Ht & -> & Hn & _).
    exists rest. split; [congruence|].
    unfold lenZ, Split, space in Hn. fold space in Hn.
    rewrite splitOn_space_length in Hn. lia.
  - intros (rest & Hl & Hc).
    destruct (cutLine (text r)) as [[line after]|] eqn:E; [|discriminate].
    injection Hl as Ht.
    exists (Split rest space), (mkBufReader after (failure r)).
    apply readAndTreatLine_ok. exists line, rest, after.
    repeat split; auto. unfold lenZ, Split, space. fold space.
    rewrite splitOn_space_length. lia.
Qed.

Lemma field_line_two_spaces_witness :
  (exists parts r',
     readAndTreatLine (mkBufReader ("  vertex 1 0 0" ++ nl)%string EOF)
       "vertex " space 3 = (parts, None, r')) /\
  ~ (exists parts r',
       readAndTreatLine (mkBufReader ("  vertex 1  0 0" ++ nl)%string EOF)
         "vertex " space 3 = (parts, None, r')).
Proof.
  split.
  - apply (field_line_two_spaces _ "vertex "). exists "1 0 0"%string.
    split; reflexivity.
  - intros H. apply (field_line_two_spaces _ "vertex ") in H
      as (rest & Hl & Hc).
    vm_compute in Hl. injection Hl as <-. vm_compute in Hc. discriminate Hc.
Defined.

Lemma keyword_line_exact_witness :
  (exists parts r',
     readAndTreatLine (mkBufReader ("    endloop" ++ nl)%string EOF)
       "endloop" EmptyString 0 = (parts, None, r')) /\
  ~ (exists parts r',
       readAndTreatLine (mkBufReader ("endloop x" ++ nl)%string EOF)
         "endloop" EmptyString 0 = (parts, None, r')).
Proof.
  split.
  - apply (keyword_line_exact _ "endloop"). reflexivity.
  - intros H. apply (keyword_line_exact _ "endloop") in H.
    vm_compute in H. discriminate H.
Defined.

(** *** Well-formed files *)



















Section WellFormedFiles.

Variable ParseFloat : string -> option float32.




(** Complete turns followed by a line that does not match are what the
    loop does, given fuel for the bytes to read. *)
Lemma facetLoop_complete (m m' : Model) (r r' : BufReader) :
  turns ParseFloat m r m' r' ->
  forall parts e rf fuel,
    readAndTreatLine r' "facet normal " " " 3 = (parts, Some e, rf) ->
    (String.length (text r) < fuel)%nat ->
    facetLoop ParseFloat fuel m r = Some (m', None, rf).
Proof.
  induction 1 as [m r|m r parts1 r1 t r2 m' r' H1 H2 _ IH];
    intros parts e rf fuel Hend Hfuel;
    (destruct fuel as [|fuel]; [lia|]); cbn [facetLoop].
  - rewrite Hend. reflexivity.
  - rewrite H1, H2. eapply IH; [exact Hend|].
    pose proof (readAndTreatLine_text r "facet normal " " " 3) as [_ L1].
    rewrite H1 in L1. cbn [fst snd] in L1. specialize (L1 eq_refl).
    pose proof (readFacet_text ParseFloat parts1 r1) as L2.
    rewrite H2 in L2. cbn [snd] in L2. lia.
Qed.

Lemma fold_appendTriangle (ts : list Triangle) : forall m,
  fold_left appendTriangle ts m
  = mkModel (Header m) (wrap32 (NumTriangles m + lenZ ts))
            (Triangles m ++ ts) \/
  (ts = [] /\ fold_left appendTriangle ts m = m).
Proof.
  induction ts as [|t ts IH]; intros m; [right; auto|]. left.
  cbn [fold_left]. destruct (IH (appendTriangle m t)) as [E|[-> E]];
    rewrite E; unfold appendTriangle; cbn [Header NumTriangles Triangles].
  - rewrite <- app_assoc. unfold wrap32, lenZ. cbn [length app].
    rewrite Zplus_mod_idemp_l. do 2 f_equal. lia.
  - unfold lenZ. cbn [length]. reflexivity.
Qed.

End WellFormedFiles.

(** *** The decoder and the facets it read *)

Lemma turns_facetsRead (ParseFloat : string -> option float32)
    (m m' : Model) (r r' : BufReader) :
  turns ParseFloat m r m' r' ->
  exists ts, facetsRead ParseFloat r ts r' /\
             m' = fold_left appendTriangle ts m.
Proof.
  induction 1 as [m r|m r parts r1 t r2 m' r' H1 H2 _ IH].
  - exists []. split; [constructor|reflexivity].
  - destruct IH as (ts & Hts & ->). exists (t :: ts).
    split; [|reflexivity]. eapply facetsRead_cons; eassumption.
Qed.

Lemma facetsRead_turns (ParseFloat : string -> option float32)
    (r r' : BufReader) (ts : list Triangle) :
  facetsRead ParseFloat r ts r' ->
  forall m, turns ParseFloat m r (fold_left appendTriangle ts m) r'.
Proof.
  induction 1 as [r|r parts r1 t r2 ts r' H1 H2 _ IH]; intros m.
  - constructor.
  - cbn [fold_left]. eapply turns_facet; [exact H1|exact H2|apply IH].
Qed.

(** The model after the triangles [ts] were appended to the model that has
    the header alone. *)
Lemma decoded_model (header : string) (ts : list Triangle) :
  fold_left appendTriangle ts (mkModel header 0 [])
  = mkModel header (wrap32 (lenZ ts)) ts.
Proof.
  destruct (fold_appendTriangle ts (mkModel header 0 [])) as [E|[-> E]];
    rewrite E; reflexivity.
Qed.

(** However the decoder returns, it returns in one of three ways: on a
    first line that cannot be read; at the head of a turn, on a
    [facet normal] line that does not match, without error; or inside a
    turn, with the error of the facet that is not complete. In the last
    two the model holds the header and the triangles of the facets read
    until then. *)
Lemma CreateFromASCIISTL_ends (ParseFloat : string -> option float32)
    (r rf : BufReader) (m : Model) (err : option error) :
  CreateFromASCIISTL ParseFloat r = Some (Returns (m, err, rf)) ->
  (cutLine (text r) = None /\ m = zeroModel /\ err = Some (failure r) /\
   rf = mkBufReader EmptyString (failure r)) \/
  exists line rest name ts r' parts,
    cutLine (text r) = Some (line, rest) /\
    sliceFromStr line 5 = Returns name /\
    facetsRead ParseFloat (mkBufReader rest (failure r)) ts r' /\
    m = mkModel (headerPrefix ++ Trim name headerCutset)%string
                (wrap32 (lenZ ts)) ts /\
    match err with
    | None =>
        exists e,
          readAndTreatLine r' "facet normal " " " 3 = (parts, Some e, rf)
    | Some e =>
        exists r1,
          readAndTreatLine r' "facet normal " " " 3 = (parts, None, r1) /\
          readFacet ParseFloat parts r1 = (inr e, rf)
    end.
Proof.
  unfold CreateFromASCIISTL, ReadString.
  destruct (cutLine (text r)) as [[line rest]|] eqn:Ec.
  - destruct (sliceFromStr line 5) as [name|] eqn:En; [|discriminate].
    destruct (facetLoop _ _ _ _) as [[[m' err'] rf']|] eqn:E; [|discriminate].
    intros [= -> -> ->]. right.
    destruct (facetLoop_ends ParseFloat _ _ _ _ _ _ E)
      as (r' & parts & Ht & Hend).
    destruct (turns_facetsRead ParseFloat _ _ _ _ Ht) as (ts & Hts & Hm).
    rewrite decoded_model in Hm.
    exists line, rest, name, ts, r', parts.
    split; [reflexivity|]. split; [exact En|]. split; [exact Hts|].
    split; [exact Hm|exact Hend].
  - intros [= <- <- <-]. left. auto.
Qed.

(** After complete turns, a [facet normal] line that does not match makes
    the decoder return the model with the triangles of those turns and no
    error. *)
Lemma CreateFromASCIISTL_mismatch (ParseFloat : string -> option float32)
    (r r' rf : BufReader) (line rest name : string) (ts : list Triangle)
    (parts : list string) (e : error) :
  cutLine (text r) = Some (line, rest) ->
  sliceFromStr line 5 = Returns name ->
  facetsRead ParseFloat (mkBufReader rest (failure r)) ts r' ->
  readAndTreatLine r' "facet normal " " " 3 = (parts, Some e, rf) ->
  CreateFromASCIISTL ParseFloat r
  = Some (Returns (mkModel (headerPrefix ++ Trim name headerCutset)%string
                           (wrap32 (lenZ ts)) ts,
                   None, rf)).
Proof.
  intros E En Hts Hend. unfold CreateFromASCIISTL, ReadString.
  rewrite E, En. cbn [text].
  rewrite (facetLoop_complete ParseFloat _ _ _ _
             (facetsRead_turns ParseFloat _ _ _ Hts _) parts e rf _ Hend)
    by (cbn [text]; lia).
  rewrite decoded_model. reflexivity.
Qed.

(** C4: a [facet normal] line that does not match ends the decoding
    without error. After the first line and any number of complete facets,
    a failed attempt to read a [facet normal] line, whatever its reason,
    makes the decoder return the model with the header and exactly the
    triangles of those facets, in file order, their count, and no error;
    the decoder returns without error in no other way; the end of the
    stream, a line too short, a line with another prefix and an [endsolid]
    line are such failures; and the decoder always comes to an end. *)
Theorem facet_mismatch_ends_decoding (ParseFloat : string -> option float32) (r : BufReader) :
  (forall line rest name ts r' parts e rf,
     cutLine (text r) = Some (line, rest) ->
     sliceFromStr line 5 = Returns name ->
     facetsRead ParseFloat (mkBufReader rest (failure r)) ts r' ->
     readAndTreatLine r' "facet normal " " " 3 = (parts, Some e, rf) ->
     CreateFromASCIISTL ParseFloat r
     = Some (Returns (mkModel (headerPrefix ++ Trim name headerCutset)%string
                              (wrap32 (lenZ ts)) ts,
                      None, rf))) /\
  (forall m rf,
     CreateFromASCIISTL ParseFloat r = Some (Returns (m, None, rf)) ->
     exists line rest name ts r' parts e,
       cutLine (text r) = Some (line, rest) /\
       sliceFromStr line 5 = Returns name /\
       facetsRead ParseFloat (mkBufReader rest (failure r)) ts r' /\
       readAndTreatLine r' "facet normal " " " 3 = (parts, Some e, rf) /\
       m = mkModel (headerPrefix ++ Trim name headerCutset)%string
                   (wrap32 (lenZ ts)) ts) /\
  (forall r',
     nextLine r' = None \/
     (exists l, nextLine r' = Some l /\
                ((String.length l < 13)%nat \/
                 String.prefix "facet normal " l = false \/
                 String.prefix "endsolid" l = true)) ->
     exists parts e r1,
       readAndTreatLine r' "facet normal " " " 3 = (parts, Some e, r1)) /\
  (exists res, CreateFromASCIISTL ParseFloat r = Some res).
Proof.
  split; [|split; [|split]].
  - intros line rest name ts r' parts e rf.
    apply CreateFromASCIISTL_mismatch.
  - intros m rf H.
    destruct (CreateFromASCIISTL_ends ParseFloat _ _ _ _ H)
      as [(_ & _ & He & _)|(line & rest & name & ts & r' & parts & E & En
                             & Hts & Hm & e & Hend)]; [discriminate|].
    exists line, rest, name, ts, r', parts, e. auto.
  - intros r' [H|(l & Hl & H)]; apply facet_normal_mismatch; [auto|].
    right. exists l. split; [exact Hl|].
    destruct H as [H|[H|H]]; auto using endsolid_not_facet.
  - apply CreateFromASCIISTL_total.
Qed.

Lemma facet_mismatch_ends_decoding_witness :
  CreateFromASCIISTL parseDigit (mkBufReader sampleASCII EOF)
  = Some (Returns (mkModel (headerPrefix ++ "t")%string 1 [sampleASCIITriangle],
                   None, mkBufReader EmptyString EOF)) /\
  (exists parts e r1,
     readAndTreatLine (mkBufReader ("endsolid t" ++ nl)%string EOF)
       "facet normal " " " 3 = (parts, Some e, r1)).
Proof.
  destruct (facet_mismatch_ends_decoding parseDigit (mkBufReader sampleASCII EOF))
    as (H1 & _ & H3 & _).
  split.
  - eapply (H1 ("solid t" ++ nl)%string _ (" t" ++ nl)%string
              [sampleASCIITriangle]
              (mkBufReader ("endsolid t" ++ nl)%string EOF)
              [] ErrLineShorter (mkBufReader EmptyString EOF)).
    + vm_compute. reflexivity.
    + reflexivity.
    + eapply facetsRead_cons;
        [vm_compute; reflexivity|vm_compute; reflexivity|
         apply facetsRead_nil].
    + vm_compute. reflexivity.
  - apply H3. right. exists "endsolid t"%string. split; [reflexivity|].
    right. right. reflexivity.
Defined.




(** *** What every returned model satisfies *)

Lemma readFacet_attr (ParseFloat : string -> option float32)
    (parts : list string) (r r' : BufReader) (t : Triangle) :
  readFacet ParseFloat parts r = (inl t, r') -> AttrByteCount t = 0.
Proof.
  unfold readFacet. destruct (parseFields _ _); [|discriminate].
  destruct (readAndTreatLine r _ _ _) as [[? [?|]] r1]; [discriminate|].
  destruct (readVertices _ r1) as [[vs|?] r2]; [|discriminate].
  destruct (readAndTreatLine r2 _ _ _) as [[? [?|]] r3]; [discriminate|].
  destruct (readAndTreatLine r3 _ _ _) as [[? [?|]] r4]; [discriminate|].
  intros [= <- _]. reflexivity.
Qed.

Lemma turns_invariants (ParseFloat : string -> option float32)
    (m m' : Model) (r r' : BufReader) :
  turns ParseFloat m r m' r' ->
  NumTriangles m = wrap32 (lenZ (Triangles m)) ->
  (forall t, In t (Triangles m) -> AttrByteCount t = 0) ->
  NumTriangles m' = wrap32 (lenZ (Triangles m')) /\
  (forall t, In t (Triangles m') -> AttrByteCount t = 0).
Proof.
  induction 1 as [m r|m r parts r1 t r2 m' r' H1 H2 _ IH]; intros Hn Ha.
  - auto.
  - apply IH; unfold appendTriangle; cbn [NumTriangles Triangles].
    + rewrite Hn. unfold wrap32, lenZ. rewrite length_app. cbn [length].
      rewrite Zplus_mod_idemp_l. f_equal. lia.
    + intros t' Ht'. apply in_app_or in Ht' as [Ht'|[<-|[]]]; [auto|].
      eapply readFacet_attr; eassumption.
Qed.

(** X8: Whatever the text and however the decoding ends, with or without
    error, the model the ASCII decoder returns has a count equal to the
    number of its triangles (as a 32-bit number) and every triangle has an
    attribute byte count of 0; and when it ends with an error after the
    first line, the triangles of the model are exactly those of the facets
    read completely from the text after the first line, in file order, the
    error being that of the facet that follows them. *)
Theorem CreateFromASCIISTL_model_invariants
    (ParseFloat : string -> option float32) (r rf : BufReader) (m : Model)
    (err : option error) :
  CreateFromASCIISTL ParseFloat r = Some (Returns (m, err, rf)) ->
  NumTriangles m = wrap32 (lenZ (Triangles m)) /\
  (forall t, In t (Triangles m) -> AttrByteCount t = 0) /\
  (forall e, err = Some e -> cutLine (text r) <> None ->
   exists line rest name r' parts r1,
     cutLine (text r) = Some (line, rest) /\
     sliceFromStr line 5 = Returns name /\
     Header m = (headerPrefix ++ Trim name headerCutset)%string /\
     facetsRead ParseFloat (mkBufReader rest (failure r)) (Triangles m) r' /\
     readAndTreatLine r' "facet normal " " " 3 = (parts, None, r1) /\
     readFacet ParseFloat parts r1 = (inr e, rf)).
Proof.
  intros H.
  destruct (CreateFromASCIISTL_ends ParseFloat _ _ _ _ H)
    as [(Hc & -> & _ & _)|(line & rest & name & ts & r' & parts & E & En
                            & Hts & -> & Hend)].
  - split; [reflexivity|]. split; [intros t []|]. intros e _ Hn.
    contradiction.
  - cbn [NumTriangles Triangles Header]. split; [reflexivity|]. split.
    + pose proof (facetsRead_turns ParseFloat _ _ _ Hts
                    (mkModel EmptyString 0 [])) as Ht.
      destruct (turns_invariants ParseFloat _ _ _ _ Ht eq_refl) as [_ Ha];
        [intros t []|].
      rewrite decoded_model in Ha. exact Ha.
    + intros e -> _. destruct Hend as (r1 & He1 & He2).
      exists line, rest, name, r', parts, r1. auto 10.
Qed.

Lemma CreateFromASCIISTL_model_invariants_witness :
  CreateFromASCIISTL parseDigit
    (mkBufReader
       (solidText " t" EmptyString [sampleFacet]
          ("facet normal 0 0 1" ++ nl ++ "outer loop" ++ nl
           ++ "vertex 0 0" ++ nl)) EOF)
  = Some (Returns (mkModel (headerPrefix ++ "t")%string 1 [sampleASCIITriangle],
                   Some ErrNumberOfParts, mkBufReader EmptyString EOF)) /\
  (forall t, In t [sampleASCIITriangle] -> AttrByteCount t = 0) /\
  exists r',
    facetsRead parseDigit
      (mkBufReader
         (fold_right (facetText EmptyString)
            ("facet normal 0 0 1" ++ nl ++ "outer loop" ++ nl
             ++ "vertex 0 0" ++ nl)%string [sampleFacet]) EOF)
      [sampleASCIITriangle] r'.
Proof.
  assert (H : CreateFromASCIISTL parseDigit
    (mkBufReader
       (solidText " t" EmptyString [sampleFacet]
          ("facet normal 0 0 1" ++ nl ++ "outer loop" ++ nl
           ++ "vertex 0 0" ++ nl)) EOF)
    = Some (Returns (mkModel (headerPrefix ++ "t")%string 1 [sampleASCIITriangle],
                     Some ErrNumberOfParts, mkBufReader EmptyString EOF)))
    by (vm_compute; reflexivity).
  split; [exact H|].
  destruct (CreateFromASCIISTL_model_invariants parseDigit _ _ _ _ H) as (_ & Ha & Hf).
  split; [exact Ha|].
  destruct (Hf ErrNumberOfParts eq_refl ltac:(discriminate))
    as (line & rest & name & r' & parts & r1 & E & _ & _ & Hts & _).
  vm_compute in E. injection E as <- <-.
  exists r'. exact Hts.
Defined.

(** ** More on the bounding box and the projection *)

Lemma keepMin_nan (acc : float32) : keepMin acc S754_nan = acc.
Proof. reflexivity. Qed.

Lemma fold_keepMin_nans (l : list float32) (acc : float32) :
  (forall d, In d l -> F32.is_nan d = true) -> fold_left keepMin l acc = acc.
Proof.
  revert acc. induction l as [|d l IH]; intros acc H; [reflexivity|].
  cbn [fold_left]. pose proof (H d (or_introl eq_refl)) as Hd.
  destruct d; try discriminate Hd. rewrite keepMin_nan.
  apply IH. intros d' Hd'. apply H. right. assumption.
Qed.

Lemma fold_keepMax_all_nan (l : list float32) (acc : float32) :
  (forall d, In d l -> F32.is_nan d = true) -> fold_left keepMax l acc = acc.
Proof.
  intros H. apply fold_keepMax_nans. intros d Hd. specialize (H d Hd).
  destruct d; try discriminate H. reflexivity.
Qed.

(** X9: The bounding box is never NaN and never leaves the sentinels behind
    it: on every axis the minimum is a number at most [MaxFloat32] and the
    maximum a number at least [-MaxFloat32]. With a coordinate on the axis
    that is not NaN the minimum is at most the maximum; with none (all
    NaN), also in a mesh that has triangles, both stay at the sentinels,
    the minimum above the maximum. *)
Theorem getMinsMaxs_sentinels (m : Model) (k : Z) :
  In k range3 ->
  let lo := get3 (fst (getMinsMaxs m)) k in
  let hi := get3 (snd (getMinsMaxs m)) k in
  (F32.is_nan lo = false /\ F32.is_nan hi = false /\
   F32.leb lo F32.MaxFloat32 = true /\
   F32.leb (F32.opp F32.MaxFloat32) hi = true) /\
  ((exists c, In c (coords m k) /\ F32.is_nan c = false) ->
   F32.leb lo hi = true) /\
  ((forall c, In c (coords m k) -> F32.is_nan c = true) ->
   lo = F32.MaxFloat32 /\ hi = F32.opp F32.MaxFloat32 /\
   F32.gtb lo hi = true).
Proof.
  intros Hk lo hi. subst lo hi.
  pose proof (getMinsMaxs_get m k Hk) as [Emin Emax].
  split; [|split].
  - rewrite Emin, Emax. repeat split.
    + exact (fold_keep_not_nan F32.ltb F32Facts.ltb_not_nan_l
               (coords m k) F32.MaxFloat32 eq_refl).
    + exact (fold_keep_not_nan F32.gtb
               (fun a b => F32Facts.ltb_not_nan_r b a)
               (coords m k) (F32.opp F32.MaxFloat32) eq_refl).
    + exact (fold_keep_upto_acc F32.ltb F32.leb F32Facts.ltb_leb
               F32Facts.ltb_not_nan_l F32Facts.leb_refl F32Facts.leb_trans
               (coords m k) F32.MaxFloat32 eq_refl).
    + exact (fold_keep_upto_acc F32.gtb (fun a b => F32.leb b a)
               (fun a b => F32Facts.ltb_leb b a)
               (fun a b => F32Facts.ltb_not_nan_r b a)
               F32Facts.leb_refl
               (fun a b d H1 H2 => F32Facts.leb_trans d b a H2 H1)
               (coords m k) (F32.opp F32.MaxFloat32) eq_refl).
  - intros (c & Hc & Hn).
    destruct (getMinsMaxs_bounds m k c Hk Hc Hn) as [H1 H2].
    exact (F32Facts.leb_trans _ _ _ H1 H2).
  - intros Hall. rewrite Emin, Emax.
    rewrite fold_keepMin_nans, fold_keepMax_all_nan by assumption.
    repeat split.
Qed.

Lemma getMinsMaxs_sentinels_witness :
  F32.leb (get3 (fst (getMinsMaxs sampleMesh)) 1)
          (get3 (snd (getMinsMaxs sampleMesh)) 1) = true /\
  get3 (fst (getMinsMaxs nanMesh)) 1 = F32.MaxFloat32 /\
  get3 (snd (getMinsMaxs nanMesh)) 1 = F32.opp F32.MaxFloat32.
Proof.
  assert (H1 : In 1 range3) by (simpl; auto).
  destruct (getMinsMaxs_sentinels sampleMesh 1 H1) as (_ & B & _).
  destruct (getMinsMaxs_sentinels nanMesh 1 H1) as (_ & _ & N).
  split.
  - apply B. exists (F32.of_int 2). split; [vm_compute; auto|reflexivity].
  - destruct N as (N1 & N2 & _); [|split; assumption].
    intros c Hc. vm_compute in Hc.
    destruct Hc as [<-|[<-|[<-|[]]]]; reflexivity.
Defined.

Lemma fold_left_flat_map {A B C} (f : A -> B -> A) (g : C -> list B)
    (l : list C) : forall a,
  fold_left f (flat_map g l) a
  = fold_left (fun a c => fold_left f (g c) a) l a.
Proof.
  induction l as [|c l IH]; intros a; [reflexivity|].
  cbn [flat_map fold_left]. rewrite fold_left_app. apply IH.
Qed.

(** The bounding box is a scan of the vertices in file order. *)
Lemma getMinsMaxs_vertices (m : Model) :
  getMinsMaxs m = fold_left vertexMinsMaxs (vertices m) (initMins, initMaxs).
Proof.
  unfold getMinsMaxs, vertices. rewrite fold_left_flat_map. reflexivity.
Qed.

(** X10: The bounding box and the projection read the vertices and nothing
    else: two meshes with the same vertices in the same order, whatever
    their headers, counts, normals and attribute byte counts, have the same
    bounding box and the same projection, panics included. *)
Theorem projection_reads_vertices_only (conv : float32 -> Z) (m1 m2 : Model)
    (size : Z) (p : ProjectFrom) :
  vertices m1 = vertices m2 ->
  getMinsMaxs m1 = getMinsMaxs m2 /\
  ProjectModelVertices conv m1 size p = ProjectModelVertices conv m2 size p.
Proof.
  intros Hv.
  assert (Hb : getMinsMaxs m1 = getMinsMaxs m2)
    by (rewrite !getMinsMaxs_vertices, Hv; reflexivity).
  split; [exact Hb|].
  rewrite !ProjectModelVertices_loop. unfold scaleOf, getDimensions.
  rewrite Hb, Hv. reflexivity.
Qed.

Lemma projection_reads_vertices_only_witness :
  ProjectModelVertices intOfUnrepresentable_amd64 sampleMesh 4 ProjectFromTop
  = ProjectModelVertices intOfUnrepresentable_amd64
      (mkModel "renamed" 7
         [mkTriangle nanVec (Vertices sampleTriangle) 9]) 4 ProjectFromTop.
Proof.
  apply (projection_reads_vertices_only intOfUnrepresentable_amd64 sampleMesh
           (mkModel "renamed" 7
              [mkTriangle nanVec (Vertices sampleTriangle) 9])).
  reflexivity.
Defined.

(** *** From the grid to the text *)

Lemma countChar_app (c : ascii) (s t : string) :
  countChar c (s ++ t) = (countChar c s + countChar c t)%nat.
Proof. induction s as [|d s IH]; simpl; [reflexivity|]. rewrite IH. lia. Qed.

Lemma drawCell_no_line_feed (v : float32) :
  countChar "010" (glyph (shadeOf (F32.mul v F32.four))) = 0%nat.
Proof. destruct (shadeOf _); reflexivity. Qed.

Lemma renderLine_line_feeds (row : list float32) :
  countChar "010" (renderLine row) = 1%nat.
Proof.
  unfold renderLine. rewrite countChar_app.
  change (countChar "010" newline) with 1%nat.
  induction row as [|v row IH]; [reflexivity|].
  cbn [map joinAll fold_right]. rewrite countChar_app, drawCell_no_line_feed.
  exact IH.
Qed.

Lemma DrawMatrix_is_render (g : list (list float32)) :
  DrawMatrix g = render g.
Proof. unfold DrawMatrix. rewrite drawRows_buffer. reflexivity. Qed.

Lemma render_app (g1 g2 : list (list float32)) :
  render (g1 ++ g2) = (render g1 ++ render g2)%string.
Proof.
  unfold render. induction g1 as [|row g1 IH]; [reflexivity|].
  cbn [app map joinAll fold_right]. fold (joinAll (map renderLine (g1 ++ g2))).
  fold (joinAll (map renderLine g1)).
  rewrite IH, append_assoc. reflexivity.
Qed.

(** X11: The text of a grid has exactly one line feed per row, and the text of
    two grids stacked is the two texts one after the other: rows are
    rendered independently, with no state carried from one to the next. *)
Theorem DrawMatrix_rows (g1 g2 : list (list float32)) :
  countChar "010" (DrawMatrix g1) = length g1 /\
  DrawMatrix (g1 ++ g2) = (DrawMatrix g1 ++ DrawMatrix g2)%string.
Proof.
  rewrite !DrawMatrix_is_render. split; [|apply render_app].
  unfold render. induction g1 as [|row g1 IH]; [reflexivity|].
  cbn [map joinAll fold_right length].
  rewrite countChar_app, renderLine_line_feeds.
  fold (joinAll (map renderLine g1)). rewrite IH. reflexivity.
Qed.

(** X12: The rendering of a projection: whenever [ProjectModelVertices] returns
    a grid for the resolution [size], [DrawMatrix] turns it into
    [size / 2 + 1] lines of [size + 1] glyphs each, every line ended by a
    line feed. *)
Theorem projection_rendering (conv : float32 -> Z) (m : Model) (size : Z)
    (p : ProjectFrom) (g : list (list float32)) :
  in_int size = true ->
  ProjectModelVertices conv m size p = Returns g ->
  exists lines : list (list shade),
    DrawMatrix g
    = joinAll (map (fun l => String.append (joinAll (map glyph l)) newline)
                   lines) /\
    lenZ lines = Z.quot size 2 + 1 /\
    (forall l, In l lines -> lenZ l = size + 1) /\
    countChar "010" (DrawMatrix g) = Z.to_nat (Z.quot size 2 + 1).
Proof.
  intros Hsize H.
  destruct (ProjectModelVertices_Returns _ _ _ _ _ H)
    as (rows & cols & _ & Hrows & Hcols & [Hlen Hrow] & _).
  rewrite quot2_in_int in Hrows by assumption.
  assert (Hcol : forall row, In row g -> lenZ row = size + 1).
  { intros row Hin. unfold lenZ. rewrite (Hrow row Hin).
    assert (Hne : rows <> 0%nat)
      by (destruct g; [contradiction|simpl in *; lia]).
    rewrite (Hcols Hne). apply wrap_succ_in_int; [assumption|].
    rewrite <- (Hcols Hne). lia. }
  exists (map (map (fun v => shadeOf (F32.mul v F32.four))) g).
  split; [|split; [|split]].
  - rewrite DrawMatrix_is_render. unfold render, renderLine.
    rewrite map_map. f_equal. apply map_ext. intros row.
    rewrite map_map. reflexivity.
  - unfold lenZ. rewrite length_map. lia.
  - intros l Hl. apply in_map_iff in Hl as (row & <- & Hin).
    unfold lenZ. rewrite length_map. apply Hcol. assumption.
  - rewrite DrawMatrix_is_render. unfold render.
    clear - Hlen Hrows. replace (Z.to_nat (Z.quot size 2 + 1)) with (length g)
      by lia.
    clear. induction g as [|row g IH]; [reflexivity|].
    cbn [map joinAll fold_right length].
    rewrite countChar_app, renderLine_line_feeds.
    fold (joinAll (map renderLine g)). rewrite IH. reflexivity.
Qed.

Lemma projection_rendering_witness :
  exists lines : list (list shade),
    DrawMatrix sampleGrid
    = joinAll (map (fun l => String.append (joinAll (map glyph l)) newline)
                   lines) /\
    lenZ lines = 3 /\ (forall l, In l lines -> lenZ l = 5) /\
    countChar "010" (DrawMatrix sampleGrid) = 3%nat.
Proof.
  assert (Hg : ProjectModelVertices intOfUnrepresentable_amd64 sampleMesh 4
                 ProjectFromSide = Returns sampleGrid)
    by (vm_compute; reflexivity).
  exact (projection_rendering intOfUnrepresentable_amd64 sampleMesh 4
           ProjectFromSide sampleGrid eq_refl Hg).
Defined.



(** X14: The direction is an [int]: the three named directions give three
    different axes, and every other value leaves the three results at 0, so
    the x axis is then used for X, for Y and for the depth. *)
Theorem GetAxisForProjection_total (p : ProjectFrom) :
  (p = ProjectFromSide \/ p = ProjectFromFront \/ p = ProjectFromTop ->
   let '(x, y, v) := GetAxisForProjection p in
   x <> y /\ x <> v /\ y <> v /\
   In x range3 /\ In y range3 /\ In v range3) /\
  (p <> ProjectFromSide -> p <> ProjectFromFront -> p <> ProjectFromTop ->
   GetAxisForProjection p = (0, 0, 0)).
Proof.
  split.
  - intros [H|[H|H]]; subst p; cbn; repeat split; try discriminate; auto.
  - intros H0 H1 H2. unfold GetAxisForProjection.
    destruct (Z.eqb_spec p ProjectFromSide); [contradiction|].
    destruct (Z.eqb_spec p ProjectFromFront); [contradiction|].
    destruct (Z.eqb_spec p ProjectFromTop); [contradiction|]. reflexivity.
Qed.

Lemma GetAxisForProjection_total_witness :
  GetAxisForProjection 7 = (0, 0, 0).
Proof.
  apply (GetAxisForProjection_total 7); discriminate.
Defined.

(** X15: An error of the stream that is not the end of the file comes back from
    the streaming decoder as it is, whether it cuts the header or the
    records. *)
Theorem CreateFromBinarySTL_stream_error (r : Reader) :
  final r <> EOF ->
  ((length (pending r) < 84)%nat ->
   snd (fst (CreateFromBinarySTL r)) = Some (final r)) /\
  ((84 <= length (pending r))%nat ->
   (length (pending r)
    < 84 + 50 * Z.to_nat (declaredCount (pending r)))%nat ->
   snd (fst (CreateFromBinarySTL r)) = Some (final r)).
Proof.
  intros Hf.
  assert (E : forall l, shortReadError l (final r) = final r).
  { intros l. unfold shortReadError. destruct l; [reflexivity|].
    destruct (final r); congruence. }
  split.
  - intros H. rewrite CreateFromBinarySTL_short by assumption.
    cbn [fst snd]. rewrite E. reflexivity.
  - intros H1 H2. unfold CreateFromBinarySTL.
    rewrite ReadFull_enough by lia.
    fold (declaredCount (pending r)).
    rewrite binaryRead_short by (cbn [pending]; rewrite length_skipn; lia).
    cbn [fst snd final]. rewrite E. reflexivity.
Qed.

Lemma CreateFromBinarySTL_stream_error_witness :
  snd (fst (CreateFromBinarySTL
              (mkReader (repeat Byte.x41 10) (ErrStream "reset"))))
  = Some (ErrStream "reset").
Proof.
  apply (proj1 (CreateFromBinarySTL_stream_error
                  (mkReader (repeat Byte.x41 10) (ErrStream "reset"))
                  ltac:(discriminate))).
  vm_compute. lia.
Defined.
